(** * Integration sync tasks of [sentry.tasks.integrations]

    A shallow embedding of [src/sentry/tasks/integrations.py]: the task
    bodies run in a state-and-exception monad over a relational store, a
    clock, a journal of observable events and the task queue.  The
    providers' installations and clients, the feature-flag evaluator and
    the plugin migrator are collaborators whose answers are given by an
    environment. *)

From Stdlib Require Import ZArith String List Bool Lia.
From stdpp Require Import base option list gmap strings.

Open Scope Z_scope.

(** ** Exceptions *)

(** The Django models the tasks read or write. *)
Inductive ModelName :=
| ExternalIssueM | GroupM | GroupLinkM | IntegrationM | OrganizationM
| OrganizationIntegrationM | RepositoryM | UserM.

(** [DoesNotExist m] is [m.DoesNotExist]; the others are the exception
    classes named in the file, and the built-in ones its expressions can
    raise. *)
Inductive Exn :=
| DoesNotExist (m : ModelName)
| IntegrationError
| ApiError
| ApiUnauthorized
| KeyError
| IndexError
| TypeError
| AttributeError
| OtherError (msg : string).

#[global] Instance ModelName_eq_dec : EqDecision ModelName.
Proof. solve_decision. Defined.

#[global] Instance Exn_eq_dec : EqDecision Exn.
Proof. solve_decision. Defined.

(** ** Data model *)

(** Values stored in a JSON metadata dict: a text, or a [datetime] as a
    count of microseconds. *)
Inductive Scalar :=
| SStr (s : string)
| STime (t : Z).

#[global] Instance Scalar_eq_dec : EqDecision Scalar.
Proof. solve_decision. Defined.

(** A metadata entry is a scalar or a nested dict such as
    [metadata['subscription']]. *)
Inductive MetaValue :=
| MScalar (v : Scalar)
| MDict (d : gmap string Scalar).

Module ExternalIssue.
Record t := { id : Z; organization_id : Z; integration_id : Z; key : string }.
End ExternalIssue.

Module Integration.
Record t := { id : Z; provider : string; metadata : gmap string MetaValue }.
End Integration.

Module Organization.
Record t := { id : Z }.
End Organization.

Module User.
Record t := { id : Z }.
End User.

Module Group.
Record t :=
  { id : Z; status : Z; project_id : Z; organization : Organization.t }.
End Group.

Module GroupLink.
Record t :=
  { id : Z; project_id : Z; group_id : Z; linked_type : Z; linked_id : Z }.
End GroupLink.

Module OrganizationIntegration.
Record t := { id : Z; organization_id : Z; integration_id : Z }.
End OrganizationIntegration.

Module Repository.
Record t :=
  { id : Z; integration_id : option Z; provider : option string; status : Z }.
End Repository.

(** Every model has a primary key and a name; [Model.objects.get(id=..)]
    and [save()] are written once for all of them. *)
Class Model (A : Type) := { model_name : ModelName; pk : A → Z }.

#[global] Instance ExternalIssue_model : Model ExternalIssue.t :=
  {| model_name := ExternalIssueM; pk := ExternalIssue.id |}.
#[global] Instance Integration_model : Model Integration.t :=
  {| model_name := IntegrationM; pk := Integration.id |}.
#[global] Instance Organization_model : Model Organization.t :=
  {| model_name := OrganizationM; pk := Organization.id |}.
#[global] Instance User_model : Model User.t :=
  {| model_name := UserM; pk := User.id |}.
#[global] Instance Group_model : Model Group.t :=
  {| model_name := GroupM; pk := Group.id |}.
#[global] Instance Repository_model : Model Repository.t :=
  {| model_name := RepositoryM; pk := Repository.id |}.
#[global] Instance GroupLink_model : Model GroupLink.t :=
  {| model_name := GroupLinkM; pk := GroupLink.id |}.
#[global] Instance OrganizationIntegration_model
  : Model OrganizationIntegration.t :=
  {| model_name := OrganizationIntegrationM; pk := OrganizationIntegration.id |}.

(** The store: one list of rows per table, in table order. *)
Record DB := {
  external_issues : list ExternalIssue.t;
  integrations : list Integration.t;
  organizations : list Organization.t;
  users : list User.t;
  groups : list Group.t;
  repositories : list Repository.t;
  group_links : list GroupLink.t;
  organization_integrations : list OrganizationIntegration.t
}.

(** The row whose primary key is [id], if any. *)
Definition row_by_id {A} `{Model A} (rows : list A) (id : Z) : option A :=
  List.find (λ r, bool_decide (pk r = id)) rows.

(** [row.save()]: UPDATE the rows with that primary key, INSERT when
    there is none. *)
Definition save_row {A} `{Model A} (r : A) (rows : list A) : list A :=
  match row_by_id rows (pk r) with
  | Some _ => List.map (λ x, if bool_decide (pk x = pk r) then r else x) rows
  | None => rows ++ [r]
  end.

(** ** Tasks, events and the world *)

(** A call of one of the tasks, with its arguments. *)
Inductive TaskCall :=
| PostComment (external_issue_id : Z) (data : gmap string string) (user_id : Z)
| SyncMetadata (integration_id : Z)
| SyncAssigneeOutbound (external_issue_id : Z) (user_id : option Z) (assign : bool)
| SyncStatusOutbound (group_id external_issue_id : Z)
| KickOffStatusSyncs (project_id group_id : Z)
| MigrateRepo (repo_id integration_id organization_id : Z)
| KickoffVstsSubscriptionCheck
| VstsSubscriptionCheck (integration : Integration.t) (organization_id : Z).

(** A queued job: the call and the attempts it may still use. *)
Record Job := { job_call : TaskCall; job_budget : nat }.

Inductive InstallationMethod :=
| should_sync_ (kind : string)
| create_comment_ (key : string) (user_id : Z) (text : string)
| sync_assignee_outbound_ (external_issue : ExternalIssue.t)
                          (user : option User.t) (assign : bool)
| sync_status_outbound_ (external_issue : ExternalIssue.t)
                        (resolved : bool) (project_id : Z)
| sync_metadata_
| has_repo_access_ (repo : Repository.t)
| get_client_.

Inductive ClientMethod :=
| get_subscription_ (instance : string) (subscription_id : Scalar)
| update_subscription_ (instance : string) (subscription_id : Scalar).

(** What a task does that can be observed from outside its own frame. *)
Inductive Event :=
| DbGet (m : ModelName) (id : Z)
| DbFilter (m : ModelName)
| DbSave (m : ModelName) (id : Z)
| InstallationCall (c : InstallationMethod)
| ClientCall (c : ClientMethod)
| AnalyticsRecord (name provider : string) (id organization_id : Z)
                  (user_id : option Z)
| LoggerInfo (msg : string) (extra : list (string * option Z))
| MigratorRun (integration : Integration.t) (organization : Organization.t)
| Attempt (call : TaskCall)
| DispatchLog (what : string) (call : TaskCall) (e : Exn).

(** The journal is kept most recent event first. *)
Record World := {
  db : DB;
  clock : Z;
  trace : list Event;
  queue : list Job
}.

Definition log (e : Event) (w : World) : World :=
  {| db := db w; clock := clock w; trace := e :: trace w; queue := queue w |}.

Definition set_db (d : DB) (w : World) : World :=
  {| db := d; clock := clock w; trace := trace w; queue := queue w |}.

Definition set_queue (q : list Job) (w : World) : World :=
  {| db := db w; clock := clock w; trace := trace w; queue := q |}.

Definition push_job (j : Job) (w : World) : World :=
  {| db := db w; clock := clock w; trace := trace w; queue := queue w ++ [j] |}.

(** ** The monad of task bodies *)

Definition Action (A : Type) : Type := World → World * (Exn + A).

#[global] Instance Action_ret : MRet Action := λ A x w, (w, inr x).

#[global] Instance Action_bind : MBind Action := λ A B f m w,
  match m w with
  | (w', inr x) => f x w'
  | (w', inl e) => (w', inl e)
  end.

Definition raise {A} (e : Exn) : Action A := λ w, (w, inl e).

Definition emit (e : Event) : Action unit := λ w, (log e w, inr tt).

(** A collaborator's answer becomes a return value or a raised exception. *)
Definition answer {A} (r : Exn + A) : Action A := λ w, (w, r).

(** [try: m except e: h]. *)
Definition try_except {A} (m : Action A) (e : Exn) (h : Action A) : Action A :=
  λ w, match m w with
       | (w', inl e') => if bool_decide (e' = e) then h w' else (w', inl e')
       | r => r
       end.

(** [d[k]] on a dict. *)
Definition getitem {V} (d : gmap string V) (k : string) : Action V :=
  match d !! k with
  | Some v => mret v
  | None => raise KeyError
  end.

(** [v[k]] where [v] came out of a metadata dict: only a dict can be
    indexed by a string key. *)
Definition subscript (v : MetaValue) (k : string) : Action Scalar :=
  match v with
  | MDict d => getitem d k
  | MScalar _ => raise TypeError
  end.

(** [datetime.now()], in microseconds. *)
Definition datetime_now : Action Z := λ w, (w, inr (clock w)).

(** [timedelta(hours=h)], in microseconds. *)
Definition timedelta_hours (h : Z) : Z := h * 3600 * 1000000.

(** [Model.objects.get(id=id)] on the table [table]. *)
Definition objects_get {A} `{Model A} (table : DB → list A) (id : Z)
  : Action A :=
  λ w, let w' := log (DbGet model_name id) w in
       match row_by_id (table (db w)) id with
       | Some r => (w', inr r)
       | None => (w', inl (DoesNotExist model_name))
       end.

Definition analytics_record (name provider : string) (id organization_id : Z)
    (user_id : option Z) : Action unit :=
  emit (AnalyticsRecord name provider id organization_id user_id).

Definition logger_info (msg : string) (extra : list (string * option Z))
  : Action unit :=
  emit (LoggerInfo msg extra).

(** [task.apply_async(kwargs=..)]: the job joins the queue with the
    task's full attempt budget. *)
Definition apply_async (call : TaskCall) (budget : nat) : Action unit :=
  λ w, (push_job {| job_call := call; job_budget := budget |} w, inr tt).

(** [Model.objects.filter(..)] evaluated: the rows satisfying [p], in
    table order. *)
Definition objects_filter {A} `{Model A} (table : DB → list A) (p : A → bool)
  : Action (list A) :=
  λ w, (log (DbFilter model_name) w, inr (List.filter p (table (db w)))).

(** [rows[0]]. *)
Definition first_row {A} (rows : list A) : Action A :=
  match rows with
  | r :: _ => mret r
  | [] => raise IndexError
  end.

(** [for x in xs: body(x)]. *)
Fixpoint for_each {A} (xs : list A) (body : A → Action unit) : Action unit :=
  match xs with
  | [] => mret tt
  | x :: rest => body x;; for_each rest body
  end.

(** ** Collaborators *)

(** The provider client of an installation (VSTS): what each call
    answers is the provider's business. *)
Module Client.
Record t := {
  on_get_subscription : string → Scalar → Exn + gmap string Scalar;
  on_update_subscription : string → Scalar → Exn + unit
}.

Definition get_subscription (client : t) (instance : string)
    (subscription_id : Scalar) : Action (gmap string Scalar) :=
  emit (ClientCall (get_subscription_ instance subscription_id));;
  answer (on_get_subscription client instance subscription_id).

Definition update_subscription (client : t) (instance : string)
    (subscription_id : Scalar) : Action unit :=
  emit (ClientCall (update_subscription_ instance subscription_id));;
  answer (on_update_subscription client instance subscription_id).
End Client.

(** The installation of an integration for an organization. *)
Module Installation.
Record t := {
  instance : string;
  on_should_sync : string → bool;
  on_create_comment : string → Z → string → Exn + unit;
  on_sync_assignee_outbound :
    ExternalIssue.t → option User.t → bool → Exn + unit;
  on_sync_status_outbound : ExternalIssue.t → bool → Z → Exn + unit;
  on_sync_metadata : Exn + unit;
  on_has_repo_access : Repository.t → Exn + bool;
  on_get_client : Client.t
}.

Definition should_sync (i : t) (kind : string) : Action bool :=
  emit (InstallationCall (should_sync_ kind));;
  mret (on_should_sync i kind).

Definition create_comment (i : t) (key : string) (user_id : Z)
    (text : string) : Action unit :=
  emit (InstallationCall (create_comment_ key user_id text));;
  answer (on_create_comment i key user_id text).

Definition sync_assignee_outbound (i : t) (external_issue : ExternalIssue.t)
    (user : option User.t) (assign : bool) : Action unit :=
  emit (InstallationCall (sync_assignee_outbound_ external_issue user assign));;
  answer (on_sync_assignee_outbound i external_issue user assign).

Definition sync_status_outbound (i : t) (external_issue : ExternalIssue.t)
    (resolved : bool) (project_id : Z) : Action unit :=
  emit (InstallationCall
          (sync_status_outbound_ external_issue resolved project_id));;
  answer (on_sync_status_outbound i external_issue resolved project_id).

Definition sync_metadata (i : t) : Action unit :=
  emit (InstallationCall sync_metadata_);;
  answer (on_sync_metadata i).

Definition has_repo_access (i : t) (repo : Repository.t) : Action bool :=
  emit (InstallationCall (has_repo_access_ repo));;
  answer (on_has_repo_access i repo).

Definition get_client (i : t) : Action Client.t :=
  emit (InstallationCall get_client_);;
  mret (on_get_client i).
End Installation.

(** What the file imports and does not define: the status constants of
    [sentry.models], the feature-flag evaluator, the installation an
    integration builds, and the plugin migrator. *)
Class Env := {
  GroupStatus_UNRESOLVED : Z;
  GroupStatus_RESOLVED : Z;
  ObjectStatus_VISIBLE : Z;
  ObjectStatus_DISABLED : Z;
  LinkedType_issue : Z;
  features_has : string → Organization.t → bool;
  get_installation : Integration.t → option Z → Installation.t;
  on_Migrator_run : Integration.t → Organization.t → Exn + unit
}.

Definition Migrator_run `{Env} (integration : Integration.t)
    (organization : Organization.t) : Action unit :=
  emit (MigratorRun integration organization);;
  answer (on_Migrator_run integration organization).

(** [repo.save()] and [integration.save()]. *)
Definition save_repository (repo : Repository.t) : Action unit :=
  λ w, let d := db w in
       (log (DbSave RepositoryM (Repository.id repo))
          (set_db {| external_issues := external_issues d;
                     integrations := integrations d;
                     organizations := organizations d;
                     users := users d;
                     groups := groups d;
                     repositories := save_row repo (repositories d);
                     group_links := group_links d;
                     organization_integrations := organization_integrations d |}
                  w),
        inr tt).

Definition save_integration (integration : Integration.t) : Action unit :=
  λ w, let d := db w in
       (log (DbSave IntegrationM (Integration.id integration))
          (set_db {| external_issues := external_issues d;
                     integrations := save_row integration (integrations d);
                     organizations := organizations d;
                     users := users d;
                     groups := groups d;
                     repositories := repositories d;
                     group_links := group_links d;
                     organization_integrations := organization_integrations d |}
                  w),
        inr tt).

(** ** The tasks *)

Section Tasks.
Context `{Env}.

(** [max_retries=5], declared by every task of the file. *)
Definition max_retries : nat := 5.

(** [post_comment]: sync Sentry comments to an external issue. *)
Definition post_comment (external_issue_id : Z) (data : gmap string string)
    (user_id : Z) : Action unit :=
  external_issue ← objects_get external_issues external_issue_id;
  organization ←
    objects_get organizations (ExternalIssue.organization_id external_issue);
  let has_issue_sync :=
    features_has "organizations:integrations-issue-sync" organization in
  if negb has_issue_sync then mret tt else
  integration ←
    objects_get integrations (ExternalIssue.integration_id external_issue);
  let installation :=
    get_installation integration
      (Some (ExternalIssue.organization_id external_issue)) in
  sync ← Installation.should_sync installation "comment";
  if sync : bool then
    text ← getitem data "text";
    Installation.create_comment installation
      (ExternalIssue.key external_issue) user_id text;;
    analytics_record "integration.issue.comments.synced"
      (Integration.provider integration) (Integration.id integration)
      (ExternalIssue.organization_id external_issue) (Some user_id)
  else mret tt.

(** [sync_metadata]. *)
Definition sync_metadata (integration_id : Z) : Action unit :=
  integration ← objects_get integrations integration_id;
  let installation := get_installation integration None in
  Installation.sync_metadata installation.

(** [sync_assignee_outbound]: sync Sentry assignee to an external issue. *)
Definition sync_assignee_outbound (external_issue_id : Z)
    (user_id : option Z) (assign : bool) : Action unit :=
  external_issue ← objects_get external_issues external_issue_id;
  organization ←
    objects_get organizations (ExternalIssue.organization_id external_issue);
  let has_issue_sync :=
    features_has "organizations:integrations-issue-sync" organization in
  if negb has_issue_sync then mret tt else
  integration ←
    objects_get integrations (ExternalIssue.integration_id external_issue);
  (* assume unassign if None *)
  user ← match user_id with
         | None => mret None
         | Some user_id => u ← objects_get users user_id; mret (Some u)
         end;
  let installation :=
    get_installation integration
      (Some (ExternalIssue.organization_id external_issue)) in
  sync ← Installation.should_sync installation "outbound_assignee";
  if sync : bool then
    Installation.sync_assignee_outbound installation external_issue user assign;;
    analytics_record "integration.issue.assignee.synced"
      (Integration.provider integration) (Integration.id integration)
      (ExternalIssue.organization_id external_issue) None
  else mret tt.

(** [sync_status_outbound]. *)
Definition sync_status_outbound (group_id external_issue_id : Z)
  : Action unit :=
  found ←
    try_except
      (rows ← objects_filter groups
                (λ g, bool_decide (Group.id g = group_id)
                      && bool_decide (Group.status g ∈
                           [GroupStatus_UNRESOLVED; GroupStatus_RESOLVED]));
       group ← first_row rows;
       mret (Some group))
      IndexError (mret None);
  match found with
  | None => mret tt
  | Some group =>
    let has_issue_sync :=
      features_has "organizations:integrations-issue-sync"
        (Group.organization group) in
    if negb has_issue_sync then mret tt else
    external_issue ← objects_get external_issues external_issue_id;
    integration ←
      objects_get integrations (ExternalIssue.integration_id external_issue);
    let installation :=
      get_installation integration
        (Some (ExternalIssue.organization_id external_issue)) in
    sync ← Installation.should_sync installation "outbound_status";
    if sync : bool then
      Installation.sync_status_outbound installation external_issue
        (bool_decide (Group.status group = GroupStatus_RESOLVED))
        (Group.project_id group);;
      analytics_record "integration.issue.status.synced"
        (Integration.provider integration) (Integration.id integration)
        (ExternalIssue.organization_id external_issue) None
    else mret tt
  end.

(** [kick_off_status_syncs]. *)
Definition kick_off_status_syncs (project_id group_id : Z) : Action unit :=
  links ← objects_filter group_links
            (λ l, bool_decide (GroupLink.project_id l = project_id)
                  && bool_decide (GroupLink.group_id l = group_id)
                  && bool_decide (GroupLink.linked_type l = LinkedType_issue));
  let external_issue_ids := List.map GroupLink.linked_id links in
  for_each external_issue_ids (λ external_issue_id,
    apply_async (SyncStatusOutbound group_id external_issue_id) max_retries).

(** [migrate_repo]. *)
Definition migrate_repo (repo_id integration_id organization_id : Z)
  : Action unit :=
  integration ← objects_get integrations integration_id;
  let installation := get_installation integration (Some organization_id) in
  repo ← objects_get repositories repo_id;
  access ← Installation.has_repo_access installation repo;
  if access : bool then
    (* this probably shouldn't happen, but log it just in case *)
    match Repository.integration_id repo with
    | Some old =>
      if negb (bool_decide (old = integration_id)) then
        logger_info "repo.migration.integration-change"
          [("integration_id", Some integration_id);
           ("old_integration_id", Repository.integration_id repo);
           ("organization_id", Some organization_id);
           ("repo_id", Some (Repository.id repo))]
      else mret tt
    | None => mret tt
    end;;
    let repo :=
      {| Repository.id := Repository.id repo;
         Repository.integration_id := Some integration_id;
         Repository.provider :=
           Some ("integrations:" +:+ Integration.provider integration);
         Repository.status := Repository.status repo |} in
    (* check against disabled specifically -- don't want to accidentally
       un-delete repos *)
    let repo :=
      if bool_decide (Repository.status repo = ObjectStatus_DISABLED) then
        {| Repository.id := Repository.id repo;
           Repository.integration_id := Repository.integration_id repo;
           Repository.provider := Repository.provider repo;
           Repository.status := ObjectStatus_VISIBLE |}
      else repo in
    save_repository repo;;
    logger_info "repo.migrated"
      [("integration_id", Some integration_id);
       ("organization_id", Some organization_id);
       ("repo_id", Some (Repository.id repo))];;
    organization ← objects_get organizations organization_id;
    Migrator_run integration organization
  else mret tt.

(** [vsts_subscription_check]. *)
Definition vsts_subscription_check (integration : Integration.t)
    (organization_id : Z) : Action unit :=
  let installation := get_installation integration (Some organization_id) in
  client ← Installation.get_client installation;
  meta_subscription ← getitem (Integration.metadata integration) "subscription";
  subscription_id ← subscript meta_subscription "id";
  subscription ←
    Client.get_subscription client (Installation.instance installation)
      subscription_id;
  status ← getitem subscription "status";
  if bool_decide (status = SStr "disabledBySystem") then
    Client.update_subscription client (Installation.instance installation)
      subscription_id;;
    now ← datetime_now;
    meta_subscription ←
      getitem (Integration.metadata integration) "subscription";
    match meta_subscription with
    | MDict d =>
      save_integration
        {| Integration.id := Integration.id integration;
           Integration.provider := Integration.provider integration;
           Integration.metadata :=
             <["subscription" := MDict (<["check" := STime now]> d)]>
               (Integration.metadata integration) |}
    | MScalar _ => raise TypeError
    end
  else mret tt.

(** The rows of
    [OrganizationIntegration.objects.filter(integration__provider='vsts')
     .select_related('integration')], each with its integration. *)
Definition vsts_organization_integrations (d : DB)
  : list (OrganizationIntegration.t * Integration.t) :=
  omap (λ oi,
          match row_by_id (integrations d)
                  (OrganizationIntegration.integration_id oi) with
          | Some i =>
            if bool_decide (Integration.provider i = "vsts")
            then Some (oi, i) else None
          | None => None
          end)
       (organization_integrations d).

(** [subscription['check'] > update_interval]: a [datetime] is only
    ordered against a [datetime]. *)
Definition check_after (subscription : MetaValue) (update_interval : Z)
  : Action bool :=
  check ← subscript subscription "check";
  match check with
  | STime t => mret (bool_decide (t > update_interval))
  | SStr _ => raise TypeError
  end.

(** The two [try] blocks of the sweep's loop body: is this integration
    due for a check?  [false] is either [continue]. *)
Definition sweep_due (integration : Integration.t) (update_interval : Z)
  : Action bool :=
  subscription ←
    try_except
      (s ← getitem (Integration.metadata integration) "subscription";
       mret (Some s))
      KeyError (mret None);
  match subscription with
  | None => mret false
  | Some subscription =>
    recent ← try_except (check_after subscription update_interval)
               KeyError (mret false);
    mret (negb recent)
  end.

(** [kickoff_vsts_subscription_check].  Its last statement,
    [vsts_subscription_check(integration, organization_id).apply_async(..)],
    is a call of the task followed by an attribute lookup on what the call
    returns: the task's body runs in line and, having no [return], yields
    [None], on which [apply_async] does not exist.  (Compare
    [sync_status_outbound.apply_async(..)] in [kick_off_status_syncs].) *)
Definition kickoff_vsts_subscription_check : Action unit :=
  organization_integrations ←
    (λ w, (log (DbFilter OrganizationIntegrationM) w,
           inr (vsts_organization_integrations (db w))));
  now ← datetime_now;
  let update_interval := now - timedelta_hours 6 in
  for_each organization_integrations (λ org_integration,
    let organization_id :=
      OrganizationIntegration.organization_id (fst org_integration) in
    let integration := snd org_integration in
    due ← sweep_due integration update_interval;
    if due : bool then
      vsts_subscription_check integration organization_id;;
      raise AttributeError
    else mret tt).

End Tasks.

(** ** Retry policy and dispatcher *)

Inductive Classification := Abort | Excluded | Retryable.

(** Modelled from the spec: the [retry] and [instrumented_task]
    decorators of [sentry.tasks.base] are imported by the file and not
    defined in it.  A policy holds what a task passes them: the errors
    named by [on=] ([None] when the keyword is not given: the decorator
    then applies to every error), the errors named by [exclude=], the
    maximum attempt count and the base delay in seconds (spec 4.1, 4.2
    and 6). *)
Record RetryPolicy := {
  on : option (list Exn);
  exclude : list Exn;
  max_attempts : nat;
  base_delay : Z
}.

(** Modelled from the spec: the MissingEntity failures of the missing
    [retry] decorator (spec 7 (a)): [DoesNotExist] of some model, the
    referenced entity is gone. *)
Definition is_missing_entity (e : Exn) : bool :=
  match e with
  | DoesNotExist _ => true
  | _ => false
  end.

(** Modelled from the spec: the errors the missing [retry] decorator
    retries (spec 4.1, Retryable), as the task's [on=] keyword names
    them: is [e] among the errors the task asks to be retried on? *)
Definition retried_on (p : RetryPolicy) (e : Exn) : bool :=
  match on p with
  | None => true
  | Some errors => bool_decide (e ∈ errors)
  end.

(** Modelled from the spec: [classify(error) -> {Abort, Excluded,
    Retryable}] of the missing [retry] decorator (spec 4.1), read on the
    two keywords the tasks pass it.  An error named by [exclude=] is never
    retried: a missing entity is dropped (Abort), another named error is
    surfaced (Excluded).  Otherwise an error the task asks to be retried
    on is Retryable, and one it does not ask for is raised and never
    retried (Excluded). *)
Definition classify (p : RetryPolicy) (e : Exn) : Classification :=
  if bool_decide (e ∈ exclude p) then
    if is_missing_entity e then Abort else Excluded
  else if retried_on p e then Retryable
  else Excluded.

(** The policy of each task, as its decorators in the file give it:
    [post_comment] and [sync_status_outbound]
    [retry(exclude=(ExternalIssue.DoesNotExist, Integration.DoesNotExist))];
    [sync_metadata]
    [retry(on=(IntegrationError,), exclude=(Integration.DoesNotExist,))];
    [sync_assignee_outbound] [retry(exclude=(ExternalIssue.DoesNotExist,
    Integration.DoesNotExist, User.DoesNotExist, Organization.DoesNotExist))];
    [migrate_repo] [retry(exclude=(Integration.DoesNotExist,
    Repository.DoesNotExist, Organization.DoesNotExist))];
    [vsts_subscription_check] [retry(exclude=(ApiError, ApiUnauthorized))];
    the two kick-off tasks [retry()]; [max_retries=5] everywhere, and the
    delays are the [default_retry_delay] of each task. *)
Definition policy_of (call : TaskCall) : RetryPolicy :=
  match call with
  | PostComment _ _ _ =>
    {| on := None;
       exclude := [DoesNotExist ExternalIssueM; DoesNotExist IntegrationM];
       max_attempts := 5; base_delay := 60 * 5 |}
  | SyncMetadata _ =>
    {| on := Some [IntegrationError];
       exclude := [DoesNotExist IntegrationM];
       max_attempts := 5; base_delay := 20 |}
  | SyncAssigneeOutbound _ _ _ =>
    {| on := None;
       exclude := [DoesNotExist ExternalIssueM; DoesNotExist IntegrationM;
                   DoesNotExist UserM; DoesNotExist OrganizationM];
       max_attempts := 5; base_delay := 60 * 5 |}
  | SyncStatusOutbound _ _ =>
    {| on := None;
       exclude := [DoesNotExist ExternalIssueM; DoesNotExist IntegrationM];
       max_attempts := 5; base_delay := 60 * 5 |}
  | KickOffStatusSyncs _ _ =>
    {| on := None; exclude := [];
       max_attempts := 5; base_delay := 60 * 5 |}
  | MigrateRepo _ _ _ =>
    {| on := None;
       exclude := [DoesNotExist IntegrationM; DoesNotExist RepositoryM;
                   DoesNotExist OrganizationM];
       max_attempts := 5; base_delay := 60 * 5 |}
  | KickoffVstsSubscriptionCheck =>
    {| on := None; exclude := [];
       max_attempts := 5; base_delay := 60 * 5 |}
  | VstsSubscriptionCheck _ _ =>
    {| on := None; exclude := [ApiError; ApiUnauthorized];
       max_attempts := 5; base_delay := 60 * 5 |}
  end.

Inductive Outcome :=
| Succeeded
| Dropped (e : Exn)
| Surfaced (e : Exn)
| Requeued (e : Exn)
| Exhausted (e : Exn).

Section Dispatcher.
Context `{Env}.

(** The body a task name is bound to. *)
Definition body_of (call : TaskCall) : Action unit :=
  match call with
  | PostComment external_issue_id data user_id =>
    post_comment external_issue_id data user_id
  | SyncMetadata integration_id => sync_metadata integration_id
  | SyncAssigneeOutbound external_issue_id user_id assign =>
    sync_assignee_outbound external_issue_id user_id assign
  | SyncStatusOutbound group_id external_issue_id =>
    sync_status_outbound group_id external_issue_id
  | KickOffStatusSyncs project_id group_id =>
    kick_off_status_syncs project_id group_id
  | MigrateRepo repo_id integration_id organization_id =>
    migrate_repo repo_id integration_id organization_id
  | KickoffVstsSubscriptionCheck => kickoff_vsts_subscription_check
  | VstsSubscriptionCheck integration organization_id =>
    vsts_subscription_check integration organization_id
  end.

(** Modelled from the spec: [execute(job)] of the missing dispatcher
    (spec 4.2): it runs the job body, catches any raised failure,
    classifies it, and drops the job (Abort), surfaces the error
    (Excluded), or re-enqueues the job with a decremented attempt budget
    (Retryable); a job out of attempts is reported as failed.  The abort
    and exclude paths leave a log entry carrying the job. *)
Definition execute (j : Job) (w : World) : World * Outcome :=
  match body_of (job_call j) (log (Attempt (job_call j)) w) with
  | (w', inr _) => (w', Succeeded)
  | (w', inl e) =>
    match classify (policy_of (job_call j)) e with
    | Abort => (log (DispatchLog "abort" (job_call j) e) w', Dropped e)
    | Excluded => (log (DispatchLog "excluded" (job_call j) e) w', Surfaced e)
    | Retryable =>
      match job_budget j with
      | S (S n) =>
        (push_job {| job_call := job_call j; job_budget := S n |} w',
         Requeued e)
      | _ => (log (DispatchLog "failed" (job_call j) e) w', Exhausted e)
      end
    end
  end.

(** Modelled from the spec: a worker of the queue (spec 5): it takes the
    job at the head of the queue and executes it to completion, [fuel]
    jobs at most. *)
Fixpoint worker (fuel : nat) (w : World) : World * list (TaskCall * Outcome) :=
  match fuel with
  | O => (w, [])
  | S fuel' =>
    match queue w with
    | [] => (w, [])
    | j :: rest =>
      let (w1, o) := execute j (set_queue rest w) in
      let (w2, os) := worker fuel' w1 in
      (w2, (job_call j, o) :: os)
    end
  end.

End Dispatcher.

(** ** Reading the journal *)

Definition is_db_read (e : Event) : bool :=
  match e with
  | DbGet _ _ | DbFilter _ => true
  | _ => false
  end.

Definition is_installation_call (e : Event) : bool :=
  match e with
  | InstallationCall _ | ClientCall _ => true
  | _ => false
  end.

Definition is_entity_write (e : Event) : bool :=
  match e with
  | DbSave _ _ => true
  | _ => false
  end.

(** A call to a provider, a write to the store, an analytics record or a
    hand-off to the migrator. *)
Definition is_side_effect (e : Event) : bool :=
  match e with
  | InstallationCall _ | ClientCall _ | DbSave _ _
  | AnalyticsRecord _ _ _ _ _ | MigratorRun _ _ => true
  | _ => false
  end.

(** [m] submits nothing and takes nothing from the queue. *)
Definition keeps_queue {A} (m : Action A) : Prop :=
  ∀ w, queue (fst (m w)) = queue w.

(** The events [w'] has journalled since [w], most recent first. *)
Definition events_since (w w' : World) (new : list Event) : Prop :=
  trace w' = new ++ trace w.

(** From [w] to [w'] nothing happened but store reads: the store and the
    queue are the same and every new event is a read. *)
Definition only_reads (w w' : World) : Prop :=
  db w' = db w ∧ queue w' = queue w ∧
  ∃ new, events_since w w' new ∧ forallb is_db_read new = true.

(** ** When a lookup is reached *)

Section Reach.
Context `{Env}.

Definition issue_sync_flag : string := "organizations:integrations-issue-sync".

(** The group [sync_status_outbound] works on: the first row with that
    id whose status is UNRESOLVED or RESOLVED. *)
Definition syncable_group (d : DB) (group_id : Z) : option Group.t :=
  List.find (λ g, bool_decide (Group.id g = group_id)
                  && bool_decide (Group.status g ∈
                       [GroupStatus_UNRESOLVED; GroupStatus_RESOLVED]))
            (groups d).

(** The [try .. except IndexError] at the head of
    [sync_status_outbound]. *)
Definition load_group (group_id : Z) : Action (option Group.t) :=
  try_except
    (rows ← objects_filter groups
              (λ g, bool_decide (Group.id g = group_id)
                    && bool_decide (Group.status g ∈
                         [GroupStatus_UNRESOLVED; GroupStatus_RESOLVED]));
     group ← first_row rows;
     mret (Some group))
    IndexError (mret None).

(** [flag_off call d]: [call] is one of the three issue-sync tasks, the
    organization it checks the flag of is found in [d], and the flag is
    off for it. *)
Inductive flag_off : TaskCall → DB → Prop :=
| flag_off_post_comment d external_issue_id data user_id ei org :
    row_by_id (external_issues d) external_issue_id = Some ei →
    row_by_id (organizations d) (ExternalIssue.organization_id ei) = Some org →
    features_has issue_sync_flag org = false →
    flag_off (PostComment external_issue_id data user_id) d
| flag_off_sync_assignee d external_issue_id user_id assign ei org :
    row_by_id (external_issues d) external_issue_id = Some ei →
    row_by_id (organizations d) (ExternalIssue.organization_id ei) = Some org →
    features_has issue_sync_flag org = false →
    flag_off (SyncAssigneeOutbound external_issue_id user_id assign) d
| flag_off_sync_status d group_id external_issue_id g :
    syncable_group d group_id = Some g →
    features_has issue_sync_flag (Group.organization g) = false →
    flag_off (SyncStatusOutbound group_id external_issue_id) d.

(** [abort_case call e d]: in store [d] the sync job [call] reaches the
    lookup of an entity of its Abort set that is gone, [e] being that
    entity's [DoesNotExist]: what the job loads before it is there, and
    the flag it checks before it is on. *)
Inductive abort_case : TaskCall → Exn → DB → Prop :=
| abort_post_comment_issue d external_issue_id data user_id :
    row_by_id (external_issues d) external_issue_id = None →
    abort_case (PostComment external_issue_id data user_id)
               (DoesNotExist ExternalIssueM) d
| abort_post_comment_integration d external_issue_id data user_id ei org :
    row_by_id (external_issues d) external_issue_id = Some ei →
    row_by_id (organizations d) (ExternalIssue.organization_id ei) = Some org →
    features_has issue_sync_flag org = true →
    row_by_id (integrations d) (ExternalIssue.integration_id ei) = None →
    abort_case (PostComment external_issue_id data user_id)
               (DoesNotExist IntegrationM) d
| abort_assignee_issue d external_issue_id user_id assign :
    row_by_id (external_issues d) external_issue_id = None →
    abort_case (SyncAssigneeOutbound external_issue_id user_id assign)
               (DoesNotExist ExternalIssueM) d
| abort_assignee_organization d external_issue_id user_id assign ei :
    row_by_id (external_issues d) external_issue_id = Some ei →
    row_by_id (organizations d) (ExternalIssue.organization_id ei) = None →
    abort_case (SyncAssigneeOutbound external_issue_id user_id assign)
               (DoesNotExist OrganizationM) d
| abort_assignee_integration d external_issue_id user_id assign ei org :
    row_by_id (external_issues d) external_issue_id = Some ei →
    row_by_id (organizations d) (ExternalIssue.organization_id ei) = Some org →
    features_has issue_sync_flag org = true →
    row_by_id (integrations d) (ExternalIssue.integration_id ei) = None →
    abort_case (SyncAssigneeOutbound external_issue_id user_id assign)
               (DoesNotExist IntegrationM) d
| abort_assignee_user d external_issue_id user_id assign ei org integration :
    row_by_id (external_issues d) external_issue_id = Some ei →
    row_by_id (organizations d) (ExternalIssue.organization_id ei) = Some org →
    features_has issue_sync_flag org = true →
    row_by_id (integrations d) (ExternalIssue.integration_id ei)
      = Some integration →
    row_by_id (users d) user_id = None →
    abort_case (SyncAssigneeOutbound external_issue_id (Some user_id) assign)
               (DoesNotExist UserM) d
| abort_status_issue d group_id external_issue_id g :
    syncable_group d group_id = Some g →
    features_has issue_sync_flag (Group.organization g) = true →
    row_by_id (external_issues d) external_issue_id = None →
    abort_case (SyncStatusOutbound group_id external_issue_id)
               (DoesNotExist ExternalIssueM) d
| abort_status_integration d group_id external_issue_id g ei :
    syncable_group d group_id = Some g →
    features_has issue_sync_flag (Group.organization g) = true →
    row_by_id (external_issues d) external_issue_id = Some ei →
    row_by_id (integrations d) (ExternalIssue.integration_id ei) = None →
    abort_case (SyncStatusOutbound group_id external_issue_id)
               (DoesNotExist IntegrationM) d.

(** The GroupLink rows [kick_off_status_syncs] fans out over. *)
Definition issue_links (d : DB) (project_id group_id : Z) : list GroupLink.t :=
  List.filter
    (λ l, bool_decide (GroupLink.project_id l = project_id)
          && bool_decide (GroupLink.group_id l = group_id)
          && bool_decide (GroupLink.linked_type l = LinkedType_issue))
    (group_links d).

End Reach.

(** ** Sample stores and collaborators *)

Module Sample.

Definition healthy : gmap string Scalar :=
  {[ "id" := SStr "sub-1"; "status" := SStr "enabled" ]}.

Definition disabled : gmap string Scalar :=
  {[ "id" := SStr "sub-1"; "status" := SStr "disabledBySystem" ]}.

Definition client (live : gmap string Scalar) : Client.t :=
  {| Client.on_get_subscription := λ _ _, inr live;
     Client.on_update_subscription := λ _ _, inr tt |}.

Definition installation (live : gmap string Scalar) : Installation.t :=
  {| Installation.instance := "example.visualstudio.com";
     Installation.on_should_sync := λ _, true;
     Installation.on_create_comment := λ _ _ _, inr tt;
     Installation.on_sync_assignee_outbound := λ _ _ _, inr tt;
     Installation.on_sync_status_outbound := λ _ _ _, inr tt;
     Installation.on_sync_metadata := inl IntegrationError;
     Installation.on_has_repo_access := λ _, inr true;
     Installation.on_get_client := client live |}.

(** An environment where the issue-sync flag is [flag] for every
    organization and every installation is the one above. *)
Definition env (flag : bool) (live : gmap string Scalar) : Env :=
  {| GroupStatus_UNRESOLVED := 0;
     GroupStatus_RESOLVED := 1;
     ObjectStatus_VISIBLE := 0;
     ObjectStatus_DISABLED := 1;
     LinkedType_issue := 1;
     features_has := λ _ _, flag;
     get_installation := λ _ _, installation live;
     on_Migrator_run := λ _ _, inr tt |}.

Definition vsts : Integration.t :=
  {| Integration.id := 7; Integration.provider := "vsts";
     Integration.metadata :=
       {[ "subscription" := MDict {[ "id" := SStr "sub-1" ]} ]} |}.

Definition issue : ExternalIssue.t :=
  {| ExternalIssue.id := 3; ExternalIssue.organization_id := 1;
     ExternalIssue.integration_id := 7; ExternalIssue.key := "APP-3" |}.

Definition org : Organization.t := {| Organization.id := 1 |}.

Definition group (status : Z) : Group.t :=
  {| Group.id := 5; Group.status := status; Group.project_id := 2;
     Group.organization := org |}.

Definition repo (status : Z) : Repository.t :=
  {| Repository.id := 9; Repository.integration_id := None;
     Repository.provider := Some "visualstudio"; Repository.status := status |}.

Definition link (id linked_id : Z) : GroupLink.t :=
  {| GroupLink.id := id; GroupLink.project_id := 2; GroupLink.group_id := 5;
     GroupLink.linked_type := 1; GroupLink.linked_id := linked_id |}.

(** A store with everything in place: group 5 of project 2, linked to
    external issues 3 and 4, and the VSTS integration 7 of
    organization 1. *)
Definition store (group_status repo_status : Z) : DB :=
  {| external_issues := [issue];
     integrations := [vsts];
     organizations := [org];
     users := [{| User.id := 11 |}];
     groups := [group group_status];
     repositories := [repo repo_status];
     group_links := [link 1 3; link 2 4];
     organization_integrations :=
       [{| OrganizationIntegration.id := 1;
           OrganizationIntegration.organization_id := 1;
           OrganizationIntegration.integration_id := 7 |}] |}.

(** The same store after the integration was deleted. *)
Definition store_without_integration : DB :=
  {| external_issues := [issue];
     integrations := [];
     organizations := [org];
     users := [{| User.id := 11 |}];
     groups := [group 0];
     repositories := [repo 1];
     group_links := [link 1 3; link 2 4];
     organization_integrations := [] |}.

Definition world (d : DB) (q : list Job) : World :=
  {| db := d; clock := 1541260800000000; trace := []; queue := q |}.

End Sample.

(** ** Frames *)

(** [m] leaves the component [f] of the world as it found it, on every
    path, raising or not. *)
Definition keeps {X A} (f : World → X) (m : Action A) : Prop :=
  ∀ w, f (fst (m w)) = f w.

(** The issue-sync tasks and their fan-out: no statement of their bodies
    writes to the store, and what they ask of the installation acts on
    the external tracker.  ([sync_metadata] is not among them: its one
    statement hands over to the installation to refresh the integration.) *)
Definition is_issue_sync_task (call : TaskCall) : bool :=
  match call with
  | PostComment _ _ _ | SyncAssigneeOutbound _ _ _ | SyncStatusOutbound _ _
  | KickOffStatusSyncs _ _ => true
  | _ => false
  end.

(** The one task whose body contains an [apply_async] that is reached. *)
Definition submits_jobs (call : TaskCall) : bool :=
  match call with
  | KickOffStatusSyncs _ _ => true
  | _ => false
  end.

(** ** The row [migrate_repo] writes *)

(** What [migrate_repo] makes of [repo] before it saves it: bound to the
    integration, provider rewritten, DISABLED turned VISIBLE. *)
Definition migrated `{Env} (integration_id : Z) (integration : Integration.t)
    (repo : Repository.t) : Repository.t :=
  let repo :=
    {| Repository.id := Repository.id repo;
       Repository.integration_id := Some integration_id;
       Repository.provider :=
         Some ("integrations:" +:+ Integration.provider integration);
       Repository.status := Repository.status repo |} in
  if bool_decide (Repository.status repo = ObjectStatus_DISABLED) then
    {| Repository.id := Repository.id repo;
       Repository.integration_id := Repository.integration_id repo;
       Repository.provider := Repository.provider repo;
       Repository.status := ObjectStatus_VISIBLE |}
  else repo.

(** The store with its repositories table replaced. *)
Definition set_repositories (rows : list Repository.t) (d : DB) : DB :=
  {| external_issues := external_issues d;
     integrations := integrations d;
     organizations := organizations d;
     users := users d;
     groups := groups d;
     repositories := rows;
     group_links := group_links d;
     organization_integrations := organization_integrations d |}.

Definition is_migrator_run (e : Event) : bool :=
  match e with
  | MigratorRun _ _ => true
  | _ => false
  end.

Definition is_integration_change_log (e : Event) : bool :=
  match e with
  | LoggerInfo msg _ => bool_decide (msg = "repo.migration.integration-change")
  | _ => false
  end.

(** The store with its integrations table replaced. *)
Definition set_integrations (rows : list Integration.t) (d : DB) : DB :=
  {| external_issues := external_issues d;
     integrations := rows;
     organizations := organizations d;
     users := users d;
     groups := groups d;
     repositories := repositories d;
     group_links := group_links d;
     organization_integrations := organization_integrations d |}.

(** The integration [vsts_subscription_check] saves after a renewal at
    time [now]: the subscription dict [d] with 'check' set. *)
Definition renewed (integration : Integration.t) (d : gmap string Scalar)
    (now : Z) : Integration.t :=
  {| Integration.id := Integration.id integration;
     Integration.provider := Integration.provider integration;
     Integration.metadata :=
       <["subscription" := MDict (<["check" := STime now]> d)]>
         (Integration.metadata integration) |}.

Definition is_update_subscription (e : Event) : bool :=
  match e with
  | ClientCall (update_subscription_ _ _) => true
  | _ => false
  end.

Definition is_client_call (e : Event) : bool :=
  match e with
  | ClientCall _ => true
  | _ => false
  end.

(** ** What the sweep finds in an integration's metadata *)

(** Checked less than six hours before [now], or without a subscription. *)
Definition checked_recently (now : Z) (integration : Integration.t) : Prop :=
  Integration.metadata integration !! "subscription" = None ∨
  ∃ d t, Integration.metadata integration !! "subscription" = Some (MDict d) ∧
         d !! "check" = Some (STime t) ∧
         now - timedelta_hours 6 < t.

(** With a subscription never checked, or checked six hours before [now]
    or earlier. *)
Definition check_overdue (now : Z) (integration : Integration.t) : Prop :=
  ∃ d, Integration.metadata integration !! "subscription" = Some (MDict d) ∧
       (d !! "check" = None ∨
        ∃ t, d !! "check" = Some (STime t) ∧ t ≤ now - timedelta_hours 6).

(** ** Sample sweeps *)

Module Scenario.

(** A VSTS integration whose subscription was last checked at [t]. *)
Definition checked_at (id t : Z) : Integration.t :=
  {| Integration.id := id; Integration.provider := "vsts";
     Integration.metadata :=
       {[ "subscription" :=
            MDict {[ "id" := SStr "sub-2"; "check" := STime t ]} ]} |}.

Definition binding (id integration_id : Z) : OrganizationIntegration.t :=
  {| OrganizationIntegration.id := id;
     OrganizationIntegration.organization_id := 1;
     OrganizationIntegration.integration_id := integration_id |}.

(** A store holding only integrations and their bindings to
    organization 1, in that order. *)
Definition sweep_store (rows : list Integration.t) : DB :=
  {| external_issues := [];
     integrations := rows;
     organizations := [Sample.org];
     users := [];
     groups := [];
     repositories := [];
     group_links := [];
     organization_integrations :=
       List.map (λ i, binding (Integration.id i) (Integration.id i)) rows |}.

(** One hour before the clock of [Sample.world]. *)
Definition an_hour_ago : Z := 1541260800000000 - timedelta_hours 1.

(** A VSTS integration whose subscription has never been checked. *)
Definition never_checked (id : Z) (subscription_id : string) : Integration.t :=
  {| Integration.id := id; Integration.provider := "vsts";
     Integration.metadata :=
       {[ "subscription" := MDict {[ "id" := SStr subscription_id ]} ]} |}.

(** The same world a day later. *)
Definition a_day_later (w : World) : World :=
  {| db := db w; clock := clock w + timedelta_hours 24;
     trace := trace w; queue := queue w |}.

End Scenario.

(** ** Outbound calls in the journal *)

(** The installation calls that change the external tracker. *)
Definition is_push_call (e : Event) : bool :=
  match e with
  | InstallationCall (create_comment_ _ _ _)
  | InstallationCall (sync_assignee_outbound_ _ _ _)
  | InstallationCall (sync_status_outbound_ _ _ _) => true
  | _ => false
  end.

Definition is_analytics_record (e : Event) : bool :=
  match e with
  | AnalyticsRecord _ _ _ _ _ => true
  | _ => false
  end.

Definition is_user_lookup (e : Event) : bool :=
  match e with
  | DbGet UserM _ => true
  | _ => false
  end.

(** * Properties *)

(** ** The store *)

Lemma row_by_id_pk {A} `{Model A} (rows : list A) (id : Z) (r : A) :
  row_by_id rows id = Some r → pk r = id.
Proof.
  unfold row_by_id. intros Hfind.
  apply List.find_some in Hfind as [_ Hpk].
  by apply bool_decide_eq_true in Hpk.
Qed.

Lemma row_by_id_map_same {A} `{Model A} (r : A) (rows : list A) (x : A) :
  row_by_id rows (pk r) = Some x →
  row_by_id (List.map (λ y, if bool_decide (pk y = pk r) then r else y) rows)
            (pk r) = Some r.
Proof.
  unfold row_by_id. induction rows as [|y rows IH]; simpl; [done|].
  destruct (bool_decide (pk y = pk r)) eqn:Hy.
  - intros _. by rewrite bool_decide_true.
  - rewrite Hy. exact IH.
Qed.

Lemma row_by_id_app_new {A} `{Model A} (r : A) (rows : list A) :
  row_by_id rows (pk r) = None → row_by_id (rows ++ [r]) (pk r) = Some r.
Proof.
  unfold row_by_id. induction rows as [|y rows IH]; simpl.
  - intros _. by rewrite bool_decide_true.
  - destruct (bool_decide (pk y = pk r)); [done|exact IH].
Qed.

(** A saved row is the one a later lookup by its key returns. *)
Lemma row_by_id_save {A} `{Model A} (r : A) (rows : list A) :
  row_by_id (save_row r rows) (pk r) = Some r.
Proof.
  unfold save_row. destruct (row_by_id rows (pk r)) eqn:Hfind.
  - by eapply row_by_id_map_same.
  - by apply row_by_id_app_new.
Qed.

Lemma row_by_id_save_at {A} `{Model A} (r : A) (rows : list A) (id : Z) :
  pk r = id → row_by_id (save_row r rows) id = Some r.
Proof. intros <-. apply row_by_id_save. Qed.

(** [filter(..)[0]] is the first row satisfying the filter. *)
Lemma first_row_filter {A} (p : A → bool) (rows : list A) (w : World) :
  first_row (List.filter p rows) w =
  match List.find p rows with
  | Some r => (w, inr r)
  | None => (w, inl IndexError)
  end.
Proof.
  induction rows as [|r rows IH]; simpl; [done|].
  destruct (p r); [done|exact IH].
Qed.

(** ** Running a body step by step *)

Lemma bind_unfold {A B} (m : Action A) (f : A → Action B) (w : World) :
  (m ≫= f) w = match m w with
               | (w', inr x) => f x w'
               | (w', inl e) => (w', inl e)
               end.
Proof. reflexivity. Qed.

Lemma objects_get_found {A} `{Model A} (table : DB → list A) (id : Z) (r : A)
    (w : World) :
  row_by_id (table (db w)) id = Some r →
  objects_get table id w = (log (DbGet model_name id) w, inr r).
Proof. unfold objects_get. by intros ->. Qed.

Lemma objects_get_missing {A} `{Model A} (table : DB → list A) (id : Z)
    (w : World) :
  row_by_id (table (db w)) id = None →
  objects_get table id w =
  (log (DbGet model_name id) w, inl (DoesNotExist model_name)).
Proof. unfold objects_get. by intros ->. Qed.

Section GroupLookup.
Context `{Env}.

Lemma load_group_spec (group_id : Z) (w : World) :
  load_group group_id w =
  (log (DbFilter GroupM) w, inr (syncable_group (db w) group_id)).
Proof.
  unfold load_group, try_except, objects_filter, syncable_group.
  rewrite bind_unfold. rewrite bind_unfold. rewrite first_row_filter.
  simpl. by destruct (List.find _ _).
Qed.

Lemma sync_status_outbound_unfold (group_id external_issue_id : Z) (w : World) :
  sync_status_outbound group_id external_issue_id w =
  match syncable_group (db w) group_id with
  | None => (log (DbFilter GroupM) w, inr tt)
  | Some group =>
    (let has_issue_sync :=
       features_has issue_sync_flag (Group.organization group) in
     if negb has_issue_sync then mret tt else
     external_issue ← objects_get external_issues external_issue_id;
     integration ←
       objects_get integrations (ExternalIssue.integration_id external_issue);
     let installation :=
       get_installation integration
         (Some (ExternalIssue.organization_id external_issue)) in
     sync ← Installation.should_sync installation "outbound_status";
     if sync : bool then
       Installation.sync_status_outbound installation external_issue
         (bool_decide (Group.status group = GroupStatus_RESOLVED))
         (Group.project_id group);;
       analytics_record "integration.issue.status.synced"
         (Integration.provider integration) (Integration.id integration)
         (ExternalIssue.organization_id external_issue) None
     else mret tt) (log (DbFilter GroupM) w)
  end.
Proof.
  unfold sync_status_outbound. fold (load_group group_id).
  rewrite bind_unfold, load_group_spec.
  by destruct (syncable_group (db w) group_id).
Qed.

End GroupLookup.

(** ** Group status filter and feature flag in [sync_status_outbound] *)

Lemma find_none_forall {A} (p : A → bool) (rows : list A) :
  (∀ x, x ∈ rows → p x = false) → List.find p rows = None.
Proof.
  induction rows as [|r rows IH]; simpl; [done|].
  intros Hall. rewrite (Hall r) by apply list_elem_of_here.
  apply IH. intros x Hx. apply Hall. by apply list_elem_of_further.
Qed.

Lemma only_reads_refl (w : World) : only_reads w w.
Proof. repeat split. by exists []. Qed.

Lemma only_reads_log (e : Event) (w w' : World) :
  is_db_read e = true → only_reads w w' → only_reads w (log e w').
Proof.
  intros He (Hdb & Hq & new & Hnew & Hall). repeat split; [done..|].
  exists (e :: new). split.
  - unfold events_since in *. simpl. by rewrite Hnew.
  - simpl. by rewrite He, Hall.
Qed.

(** C8: [sync_status_outbound] on a group id whose Group has a status
    that is neither UNRESOLVED nor RESOLVED, or that has no Group at all,
    returns normally having done one thing only, the filtered Group query:
    no installation call, no analytics record, no write, nothing queued. *)
Theorem sync_status_outbound_other_status_noop `{Env}
    (group_id external_issue_id : Z) (w : World) :
  (∀ g, g ∈ groups (db w) → Group.id g = group_id →
        Group.status g ≠ GroupStatus_UNRESOLVED ∧
        Group.status g ≠ GroupStatus_RESOLVED) →
  ∃ w', sync_status_outbound group_id external_issue_id w = (w', inr tt) ∧
        events_since w w' [DbFilter GroupM] ∧
        db w' = db w ∧ queue w' = queue w.
Proof.
  intros Hstatus. rewrite sync_status_outbound_unfold.
  assert (syncable_group (db w) group_id = None) as ->.
  { apply find_none_forall. intros g Hg.
    destruct (bool_decide (Group.id g = group_id)) eqn:Hid; [|done].
    apply bool_decide_eq_true in Hid. destruct (Hstatus g Hg Hid) as [Hu Hr].
    simpl. apply bool_decide_eq_false. intros Hin.
    apply elem_of_cons in Hin as [?|Hin]; [done|].
    apply elem_of_cons in Hin as [?|Hin]; [done|].
    by apply not_elem_of_nil in Hin. }
  by eexists.
Qed.

Lemma sync_status_outbound_other_status_noop_witness :
  let E := Sample.env true Sample.healthy in
  let w := Sample.world (Sample.store 2 1) [] in
  (∀ g, g ∈ groups (db w) → Group.id g = 5 →
        Group.status g ≠ GroupStatus_UNRESOLVED ∧
        Group.status g ≠ GroupStatus_RESOLVED) ∧
  ∃ w', sync_status_outbound 5 3 w = (w', inr tt) ∧
        events_since w w' [DbFilter GroupM] ∧
        db w' = db w ∧ queue w' = queue w.
Proof.
  intros E w.
  assert (∀ g, g ∈ groups (db w) → Group.id g = 5 →
               Group.status g ≠ GroupStatus_UNRESOLVED ∧
               Group.status g ≠ GroupStatus_RESOLVED) as Hstatus.
  { intros g Hg _. apply elem_of_cons in Hg as [->|Hg].
    - split; discriminate.
    - by apply not_elem_of_nil in Hg. }
  split; [exact Hstatus|].
  exact (@sync_status_outbound_other_status_noop E 5 3 w Hstatus).
Defined.

(** C9: in [sync_status_outbound] the feature flag of the group's
    organization is checked before the ExternalIssue and the Integration
    are loaded: when every Group with that id belongs to an organization
    without the issue-sync flag, the job returns normally and the filtered
    Group query is the only thing it did, whatever the store holds for
    [external_issue_id]. *)
Theorem sync_status_outbound_flag_before_lookups `{Env}
    (group_id external_issue_id : Z) (w : World) :
  (∀ g, g ∈ groups (db w) → Group.id g = group_id →
        features_has issue_sync_flag (Group.organization g) = false) →
  ∃ w', sync_status_outbound group_id external_issue_id w = (w', inr tt) ∧
        events_since w w' [DbFilter GroupM] ∧
        db w' = db w ∧ queue w' = queue w.
Proof.
  intros Hflag. rewrite sync_status_outbound_unfold.
  destruct (syncable_group (db w) group_id) as [g|] eqn:Hg; [|by eexists].
  unfold syncable_group in Hg. apply List.find_some in Hg as [Hin Hp].
  apply andb_prop in Hp as [Hid _]. apply bool_decide_eq_true in Hid.
  apply list_elem_of_In in Hin.
  simpl. rewrite (Hflag g Hin Hid). simpl. by eexists.
Qed.

Lemma sync_status_outbound_flag_before_lookups_witness :
  let E := Sample.env false Sample.healthy in
  let w := Sample.world Sample.store_without_integration [] in
  (∀ g, g ∈ groups (db w) → Group.id g = 5 →
        features_has issue_sync_flag (Group.organization g) = false) ∧
  row_by_id (external_issues (db w)) 99 = None ∧
  ∃ w', sync_status_outbound 5 99 w = (w', inr tt) ∧
        events_since w w' [DbFilter GroupM] ∧
        db w' = db w ∧ queue w' = queue w.
Proof.
  intros E w.
  assert (∀ g, g ∈ groups (db w) → Group.id g = 5 →
               features_has issue_sync_flag (Group.organization g) = false)
    as Hflag by reflexivity.
  split; [exact Hflag|]. split; [reflexivity|].
  exact (@sync_status_outbound_flag_before_lookups E 5 99 w Hflag).
Defined.

(** ** The feature flag gate *)

Ltac found Hrow := rewrite bind_unfold; erewrite objects_get_found by exact Hrow.
Ltac missing Hrow := rewrite bind_unfold; erewrite objects_get_missing by exact Hrow.
Ltac step :=
  cbn beta iota zeta;
  cbn [db clock trace queue log set_db fst snd repositories organizations
       integrations external_issues users groups
       Repository.id Repository.status Repository.integration_id
       Repository.provider].
Ltac reads := repeat (apply only_reads_log; [reflexivity|]); apply only_reads_refl.

Lemma db_read_no_side_effect (new : list Event) :
  forallb is_db_read new = true →
  forallb (λ ev, negb (is_side_effect ev)) new = true.
Proof.
  induction new as [|e new IH]; simpl; [done|].
  intros [He Hnew]%andb_prop. rewrite (IH Hnew).
  by destruct e.
Qed.

(** C1, as amended: for [post_comment], [sync_assignee_outbound] and
    [sync_status_outbound], when the organization whose flag the task
    checks is found and 'organizations:integrations-issue-sync' is off for
    it, the task returns normally and has only read the store: no
    installation call, no entity write, no analytics record, whatever the
    installation's [should_sync] would answer. *)
Theorem issue_sync_flag_off_noop `{Env} (call : TaskCall) (w : World) :
  flag_off call (db w) →
  ∃ w', body_of call w = (w', inr tt) ∧ only_reads w w'.
Proof.
  intros Hoff. inversion Hoff as
    [d eid data uid ei org Hei Horg Hflag
    |d eid uid assign ei org Hei Horg Hflag
    |d gid eid g Hg Hflag]; subst; unfold issue_sync_flag in Hflag; simpl.
  - unfold post_comment. found Hei. found Horg.
    rewrite Hflag. simpl. eexists. split; [done|reads].
  - unfold sync_assignee_outbound. found Hei. found Horg.
    rewrite Hflag. simpl. eexists. split; [done|reads].
  - rewrite sync_status_outbound_unfold, Hg. unfold issue_sync_flag.
    simpl. rewrite Hflag. simpl. eexists. split; [done|reads].
Qed.

Lemma issue_sync_flag_off_noop_witness :
  let E := Sample.env false Sample.healthy in
  let w := Sample.world (Sample.store 0 1) [] in
  flag_off (PostComment 3 ∅ 11) (db w) ∧
  ∃ w', body_of (PostComment 3 ∅ 11) w = (w', inr tt) ∧ only_reads w w'.
Proof.
  intros E w.
  assert (flag_off (PostComment 3 ∅ 11) (db w)) as Hoff
    by (by eapply (@flag_off_post_comment E _ _ _ _ Sample.issue Sample.org)).
  split; [exact Hoff|].
  exact (@issue_sync_flag_off_noop E (PostComment 3 ∅ 11) w Hoff).
Defined.

(** C1 fails for [migrate_repo] and [sync_metadata], which never consult
    the flag: with the flag off for every organization, [migrate_repo]
    still asks the installation, rewrites the repository and saves it, and
    [sync_metadata] still calls the installation. *)
Lemma flag_off_migrate_repo_and_sync_metadata_act :
  let E := Sample.env false Sample.healthy in
  let w := Sample.world (Sample.store 0 1) [] in
  features_has issue_sync_flag Sample.org = false ∧
  existsb is_installation_call (trace (fst (migrate_repo 9 7 1 w))) = true ∧
  existsb is_entity_write (trace (fst (migrate_repo 9 7 1 w))) = true ∧
  row_by_id (repositories (db (fst (migrate_repo 9 7 1 w)))) 9
    ≠ row_by_id (repositories (db w)) 9 ∧
  existsb is_installation_call (trace (fst (sync_metadata 7 w))) = true.
Proof. vm_compute. repeat split; congruence. Qed.

(** ** Missing entities *)

Lemma abort_case_body `{Env} (call : TaskCall) (e : Exn) (w : World) :
  abort_case call e (db w) →
  ∃ w1, body_of call w = (w1, inl e) ∧ only_reads w w1.
Proof.
  intros Hcase. inversion Hcase; subst; unfold issue_sync_flag in *; simpl.
  - unfold post_comment.
    match goal with Hei : _ = None |- _ => missing Hei end.
    eexists. split; [done|reads].
  - unfold post_comment.
    match goal with
      Hei : row_by_id (external_issues _) _ = Some _,
      Horg : row_by_id (organizations _) _ = Some _,
      Hflag : features_has _ _ = true,
      Hint : row_by_id (integrations _) _ = None |- _ =>
      found Hei; found Horg; rewrite Hflag; simpl; missing Hint
    end.
    eexists. split; [done|reads].
  - unfold sync_assignee_outbound.
    match goal with Hei : _ = None |- _ => missing Hei end.
    eexists. split; [done|reads].
  - unfold sync_assignee_outbound.
    match goal with
      Hei : row_by_id (external_issues _) _ = Some _,
      Horg : row_by_id (organizations _) _ = None |- _ =>
      found Hei; missing Horg
    end.
    eexists. split; [done|reads].
  - unfold sync_assignee_outbound.
    match goal with
      Hei : row_by_id (external_issues _) _ = Some _,
      Horg : row_by_id (organizations _) _ = Some _,
      Hflag : features_has _ _ = true,
      Hint : row_by_id (integrations _) _ = None |- _ =>
      found Hei; found Horg; rewrite Hflag; simpl; missing Hint
    end.
    eexists. split; [done|reads].
  - unfold sync_assignee_outbound.
    match goal with
      Hei : row_by_id (external_issues _) _ = Some _,
      Horg : row_by_id (organizations _) _ = Some _,
      Hflag : features_has _ _ = true,
      Hint : row_by_id (integrations _) _ = Some _,
      Husr : row_by_id (users _) _ = None |- _ =>
      found Hei; found Horg; rewrite Hflag; simpl; found Hint;
      rewrite bind_unfold; missing Husr
    end.
    eexists. split; [done|reads].
  - rewrite sync_status_outbound_unfold.
    match goal with
      Hg : syncable_group _ _ = Some _,
      Hflag : features_has _ _ = true,
      Hei : row_by_id (external_issues _) _ = None |- _ =>
      rewrite Hg; unfold issue_sync_flag; simpl; rewrite Hflag; simpl;
      missing Hei
    end.
    eexists. split; [done|reads].
  - rewrite sync_status_outbound_unfold.
    match goal with
      Hg : syncable_group _ _ = Some _,
      Hflag : features_has _ _ = true,
      Hei : row_by_id (external_issues _) _ = Some _,
      Hint : row_by_id (integrations _) _ = None |- _ =>
      rewrite Hg; unfold issue_sync_flag; simpl; rewrite Hflag; simpl;
      found Hei; missing Hint
    end.
    eexists. split; [done|reads].
Qed.

Lemma abort_case_classified `{Env} (call : TaskCall) (e : Exn) (d : DB) :
  abort_case call e d → classify (policy_of call) e = Abort.
Proof. intros Hcase. by inversion Hcase. Qed.

(** C3, as amended: when a sync job ([post_comment],
    [sync_assignee_outbound], [sync_status_outbound]) reaches the lookup of
    an entity of its Abort set that has been deleted (what it loads before
    is there and the flag checked before is on; for [sync_status_outbound]
    the group filter matched), its body raises that entity's
    [DoesNotExist] having only read the store; the error is classified
    Abort, and the dispatcher drops the job: nothing re-enqueued, nothing
    written, no side effect among the events of the attempt. *)
Theorem missing_entity_aborts `{Env} (call : TaskCall) (e : Exn) (w : World)
    (budget : nat) :
  abort_case call e (db w) →
  (∃ w1, body_of call w = (w1, inl e) ∧ only_reads w w1) ∧
  classify (policy_of call) e = Abort ∧
  ∃ w2, execute {| job_call := call; job_budget := budget |} w = (w2, Dropped e) ∧
        db w2 = db w ∧ queue w2 = queue w ∧
        ∃ new, events_since w w2 new ∧
               forallb (λ ev, negb (is_side_effect ev)) new = true.
Proof.
  intros Hcase. split; [by apply abort_case_body|].
  split; [by eapply abort_case_classified|].
  destruct (abort_case_body call e (log (Attempt call) w) Hcase)
    as (w1 & Hbody & Hdb & Hq & new & Hnew & Hreads).
  unfold execute. simpl. rewrite Hbody.
  rewrite (abort_case_classified call e _ Hcase).
  eexists. split; [done|]. simpl. repeat split; [done..|].
  exists (DispatchLog "abort" call e :: new ++ [Attempt call]). split.
  - unfold events_since in *. simpl. rewrite Hnew. simpl.
    by rewrite <- app_assoc.
  - simpl. rewrite forallb_app, (db_read_no_side_effect _ Hreads). done.
Qed.

Lemma missing_entity_aborts_witness :
  let E := Sample.env true Sample.healthy in
  let w := Sample.world Sample.store_without_integration [] in
  abort_case (PostComment 3 ∅ 11) (DoesNotExist IntegrationM) (db w) ∧
  ∃ w2, execute {| job_call := PostComment 3 ∅ 11; job_budget := 5 |} w
          = (w2, Dropped (DoesNotExist IntegrationM)) ∧
        db w2 = db w ∧ queue w2 = queue w ∧
        ∃ new, events_since w w2 new ∧
               forallb (λ ev, negb (is_side_effect ev)) new = true.
Proof.
  intros E w.
  assert (abort_case (PostComment 3 ∅ 11) (DoesNotExist IntegrationM) (db w))
    as Hcase
    by (by eapply (@abort_post_comment_integration E _ _ _ _
                     Sample.issue Sample.org)).
  split; [exact Hcase|].
  exact (proj2 (proj2 (@missing_entity_aborts E (PostComment 3 ∅ 11)
                         (DoesNotExist IntegrationM) w 5 Hcase))).
Defined.

(** C3 fails as stated: with the Integration deleted and the issue-sync
    flag off, [post_comment] raises nothing: it returns normally after
    loading the ExternalIssue and the Organization, before it would load
    the Integration. *)
Lemma post_comment_flag_off_deleted_integration_returns :
  let E := Sample.env false Sample.healthy in
  let w := Sample.world Sample.store_without_integration [] in
  row_by_id (external_issues (db w)) 3 = Some Sample.issue ∧
  row_by_id (integrations (db w)) (ExternalIssue.integration_id Sample.issue)
    = None ∧
  post_comment 3 ∅ 11 w =
    (log (DbGet OrganizationM 1) (log (DbGet ExternalIssueM 3) w), inr tt).
Proof. vm_compute. by repeat split. Qed.

(** ** Errors a task asks to be retried on *)

Lemma sync_metadata_raises `{Env} (integration_id : Z)
    (integration : Integration.t) (w : World) :
  row_by_id (integrations (db w)) integration_id = Some integration →
  Installation.on_sync_metadata (get_installation integration None)
    = inl IntegrationError →
  sync_metadata integration_id w =
  (log (InstallationCall sync_metadata_)
     (log (DbGet IntegrationM integration_id) w),
   inl IntegrationError).
Proof.
  intros Hrow Herr. unfold sync_metadata. found Hrow.
  unfold Installation.sync_metadata, emit, answer.
  by rewrite bind_unfold, Herr.
Qed.

Lemma worker_step `{Env} (fuel : nat) (j : Job) (rest : list Job) (w : World) :
  queue w = j :: rest →
  worker (S fuel) w =
  let (w1, o) := execute j (set_queue rest w) in
  let (w2, os) := worker fuel w1 in
  (w2, (job_call j, o) :: os).
Proof. intros Hq. cbn [worker]. by rewrite Hq. Qed.

Lemma worker_idle `{Env} (fuel : nat) (w : World) :
  queue w = [] → worker fuel w = (w, []).
Proof. intros Hq. destruct fuel; cbn [worker]; [done|by rewrite Hq]. Qed.

Lemma execute_sync_metadata_requeues `{Env} (integration_id : Z)
    (integration : Integration.t) (n : nat) (w : World) :
  row_by_id (integrations (db w)) integration_id = Some integration →
  Installation.on_sync_metadata (get_installation integration None)
    = inl IntegrationError →
  execute {| job_call := SyncMetadata integration_id; job_budget := S (S n) |} w
  = (push_job {| job_call := SyncMetadata integration_id; job_budget := S n |}
       (log (InstallationCall sync_metadata_)
          (log (DbGet IntegrationM integration_id)
             (log (Attempt (SyncMetadata integration_id)) w))),
     Requeued IntegrationError).
Proof.
  intros Hrow Herr. unfold execute. cbn [job_call job_budget body_of].
  by rewrite (sync_metadata_raises integration_id integration).
Qed.

Lemma execute_sync_metadata_exhausted `{Env} (integration_id : Z)
    (integration : Integration.t) (w : World) :
  row_by_id (integrations (db w)) integration_id = Some integration →
  Installation.on_sync_metadata (get_installation integration None)
    = inl IntegrationError →
  execute {| job_call := SyncMetadata integration_id; job_budget := 1 |} w
  = (log (DispatchLog "failed" (SyncMetadata integration_id) IntegrationError)
       (log (InstallationCall sync_metadata_)
          (log (DbGet IntegrationM integration_id)
             (log (Attempt (SyncMetadata integration_id)) w))),
     Exhausted IntegrationError).
Proof.
  intros Hrow Herr. unfold execute. cbn [job_call job_budget body_of].
  by rewrite (sync_metadata_raises integration_id integration).
Qed.

Lemma worker_sync_metadata_retries `{Env} (integration_id : Z)
    (integration : Integration.t) (budget fuel : nat) (w : World) :
  queue w = [{| job_call := SyncMetadata integration_id;
                job_budget := S budget |}] →
  row_by_id (integrations (db w)) integration_id = Some integration →
  Installation.on_sync_metadata (get_installation integration None)
    = inl IntegrationError →
  ∃ w', worker (S budget + fuel) w =
          (w', replicate budget
                 (SyncMetadata integration_id, Requeued IntegrationError)
               ++ [(SyncMetadata integration_id, Exhausted IntegrationError)]) ∧
        queue w' = [] ∧ db w' = db w.
Proof.
  revert w. induction budget as [|budget IH]; intros w Hq Hrow Herr.
  - change (1 + fuel)%nat with (S fuel).
    rewrite (worker_step _ _ _ _ Hq).
    rewrite (execute_sync_metadata_exhausted integration_id integration)
      by done.
    rewrite worker_idle by done. by eexists.
  - change (S (S budget) + fuel)%nat with (S (S budget + fuel)).
    rewrite (worker_step _ _ _ _ Hq).
    rewrite (execute_sync_metadata_requeues integration_id integration)
      by done.
    edestruct (IH (push_job
                     {| job_call := SyncMetadata integration_id;
                        job_budget := S budget |}
                     (log (InstallationCall sync_metadata_)
                        (log (DbGet IntegrationM integration_id)
                           (log (Attempt (SyncMetadata integration_id))
                              (set_queue [] w))))))
      as (w' & Hrun & Hempty & Hdb); [done..|].
    rewrite Hrun. by eexists.
Qed.

(** C2, as amended: [IntegrationError] is the error [sync_metadata]
    asks to be retried on ([retry(on=(IntegrationError,), ..)]), and the
    only one.  A [sync_metadata] job whose installation raises
    [IntegrationError] is re-enqueued after each attempt with one attempt
    less, until its budget is used up, and is then reported as failed: a
    budget of [S budget] makes [S budget] attempts.  No other error of
    this task is retried. *)
Theorem sync_metadata_integration_error_retried `{Env} (integration_id : Z)
    (integration : Integration.t) (budget fuel : nat) (w : World) :
  queue w = [{| job_call := SyncMetadata integration_id;
                job_budget := S budget |}] →
  row_by_id (integrations (db w)) integration_id = Some integration →
  Installation.on_sync_metadata (get_installation integration None)
    = inl IntegrationError →
  classify (policy_of (SyncMetadata integration_id)) IntegrationError
    = Retryable ∧
  (∀ e, e ≠ IntegrationError →
        classify (policy_of (SyncMetadata integration_id)) e ≠ Retryable) ∧
  ∃ w', worker (S budget + fuel) w =
          (w', replicate budget
                 (SyncMetadata integration_id, Requeued IntegrationError)
               ++ [(SyncMetadata integration_id, Exhausted IntegrationError)]) ∧
        queue w' = [] ∧ db w' = db w.
Proof.
  intros Hq Hrow Herr. split; [reflexivity|]. split.
  - intros e Hne. unfold classify, retried_on. simpl.
    case_bool_decide; [by destruct (is_missing_entity e)|].
    rewrite bool_decide_false; [done|].
    intros Hin. apply elem_of_cons in Hin as [?|Hin]; [done|].
    by apply not_elem_of_nil in Hin.
  - by eapply worker_sync_metadata_retries.
Qed.

Lemma sync_metadata_integration_error_retried_witness :
  let E := Sample.env true Sample.healthy in
  let w := Sample.world (Sample.store 0 1)
             [{| job_call := SyncMetadata 7; job_budget := 5 |}] in
  Installation.on_sync_metadata (get_installation Sample.vsts None)
    = inl IntegrationError ∧
  ∃ w', worker 8 w =
          (w', replicate 4 (SyncMetadata 7, Requeued IntegrationError)
               ++ [(SyncMetadata 7, Exhausted IntegrationError)]) ∧
        queue w' = [] ∧ db w' = db w.
Proof.
  intros E w. split; [reflexivity|].
  apply (@sync_metadata_integration_error_retried E 7 Sample.vsts 4 3 w);
    reflexivity.
Defined.

(** C2 fails as stated: the first attempt of a [sync_metadata] job whose
    installation raises [IntegrationError] puts the job back on the queue,
    with four attempts left of five, and a worker that runs two jobs
    attempts it twice. *)
Lemma sync_metadata_integration_error_requeued :
  let E := Sample.env true Sample.healthy in
  let job := {| job_call := SyncMetadata 7; job_budget := 5 |} in
  let w := Sample.world (Sample.store 0 1) [job] in
  Installation.on_sync_metadata (get_installation Sample.vsts None)
    = inl IntegrationError ∧
  snd (sync_metadata 7 w) = inl IntegrationError ∧
  snd (execute job (set_queue [] w)) = Requeued IntegrationError ∧
  queue (fst (execute job (set_queue [] w)))
    = [{| job_call := SyncMetadata 7; job_budget := 4 |}] ∧
  snd (worker 2 w) =
    [(SyncMetadata 7, Requeued IntegrationError);
     (SyncMetadata 7, Requeued IntegrationError)].
Proof. vm_compute. by repeat split. Qed.

(** ** Fan-out *)

Lemma for_each_apply_async (mk : Z → TaskCall) (budget : nat) (ids : list Z)
    (w : World) :
  for_each ids (λ id, apply_async (mk id) budget) w =
  (set_queue
     (queue w ++ List.map (λ id, {| job_call := mk id; job_budget := budget |}) ids)
     w,
   inr tt).
Proof.
  revert w. induction ids as [|id ids IH]; intros w; simpl.
  - rewrite app_nil_r. by destruct w.
  - rewrite bind_unfold. unfold apply_async at 1. rewrite IH.
    unfold push_job, set_queue. simpl. by rewrite <- app_assoc.
Qed.

(** C4: [kick_off_status_syncs(project_id, group_id)] returns normally
    and appends to the queue one [sync_status_outbound] job per GroupLink
    row of linked type 'issue' of that project and group, in table order,
    each carrying the group id and the row's linked id; so K such rows make
    K jobs and no row makes none.  The store is only read. *)
Theorem kick_off_status_syncs_fanout `{Env} (project_id group_id : Z)
    (w : World) :
  ∃ w', kick_off_status_syncs project_id group_id w = (w', inr tt) ∧
        queue w' =
          queue w ++
          List.map (λ l, {| job_call :=
                              SyncStatusOutbound group_id (GroupLink.linked_id l);
                            job_budget := max_retries |})
                   (issue_links (db w) project_id group_id) ∧
        length (queue w') =
          (length (queue w)
           + length (issue_links (db w) project_id group_id))%nat ∧
        db w' = db w ∧
        events_since w w' [DbFilter GroupLinkM].
Proof.
  unfold kick_off_status_syncs. rewrite bind_unfold. unfold objects_filter.
  fold (issue_links (db w) project_id group_id).
  rewrite for_each_apply_async. eexists. split; [done|]. simpl.
  rewrite List.map_map. repeat split.
  by rewrite length_app, length_map.
Qed.

(** ** Subscription renewal *)

(** The check of a subscription whose live status is not
    'disabledBySystem': two calls, no write. *)
Lemma vsts_subscription_check_other_status `{Env}
    (integration : Integration.t) (organization_id : Z) (w : World)
    (d live : gmap string Scalar) (sid status : Scalar) :
  let installation := get_installation integration (Some organization_id) in
  let client := Installation.on_get_client installation in
  let instance := Installation.instance installation in
  Integration.metadata integration !! "subscription" = Some (MDict d) →
  d !! "id" = Some sid →
  Client.on_get_subscription client instance sid = inr live →
  live !! "status" = Some status →
  status ≠ SStr "disabledBySystem" →
  vsts_subscription_check integration organization_id w =
  (log (ClientCall (get_subscription_ instance sid))
     (log (InstallationCall get_client_) w), inr tt).
Proof.
  intros installation client instance Hsub Hid Hlive Hstatus Hne.
  unfold vsts_subscription_check, Installation.get_client,
    Client.get_subscription, Client.update_subscription, getitem, subscript,
    getitem, emit, answer, datetime_now, raise, save_integration,
    mbind, mret, Action_bind, Action_ret.
  fold installation client instance. cbn beta iota.
  rewrite Hsub, Hid. cbn beta iota. rewrite Hlive, Hstatus. cbn beta iota.
  by rewrite bool_decide_false.
Qed.

(** C6: [vsts_subscription_check], once [get_subscription] has
    answered with a live status: for any status other than
    'disabledBySystem' it returns having made that one client call and no
    write; for 'disabledBySystem' it calls [update_subscription] and, that
    call returning, saves the integration with the subscription's 'check'
    set to the current time (should that call raise, the error leaves the
    task and nothing is written). *)
Theorem vsts_subscription_check_renews_iff_disabled `{Env}
    (integration : Integration.t) (organization_id : Z) (w : World)
    (d live : gmap string Scalar) (sid status : Scalar) :
  let installation := get_installation integration (Some organization_id) in
  let client := Installation.on_get_client installation in
  let instance := Installation.instance installation in
  Integration.metadata integration !! "subscription" = Some (MDict d) →
  d !! "id" = Some sid →
  Client.on_get_subscription client instance sid = inr live →
  live !! "status" = Some status →
  (status ≠ SStr "disabledBySystem" →
   ∃ w', vsts_subscription_check integration organization_id w = (w', inr tt) ∧
         db w' = db w ∧ queue w' = queue w ∧
         events_since w w'
           [ClientCall (get_subscription_ instance sid);
            InstallationCall get_client_]) ∧
  (status = SStr "disabledBySystem" →
   Client.on_update_subscription client instance sid = inr tt →
   ∃ w', vsts_subscription_check integration organization_id w = (w', inr tt) ∧
         events_since w w'
           [DbSave IntegrationM (Integration.id integration);
            ClientCall (update_subscription_ instance sid);
            ClientCall (get_subscription_ instance sid);
            InstallationCall get_client_] ∧
         row_by_id (integrations (db w')) (Integration.id integration) =
           Some {| Integration.id := Integration.id integration;
                   Integration.provider := Integration.provider integration;
                   Integration.metadata :=
                     <["subscription" := MDict (<["check" := STime (clock w)]> d)]>
                       (Integration.metadata integration) |}) ∧
  (status = SStr "disabledBySystem" →
   ∀ e, Client.on_update_subscription client instance sid = inl e →
   ∃ w', vsts_subscription_check integration organization_id w = (w', inl e) ∧
         db w' = db w ∧
         events_since w w'
           [ClientCall (update_subscription_ instance sid);
            ClientCall (get_subscription_ instance sid);
            InstallationCall get_client_]).
Proof.
  intros installation client instance Hsub Hid Hlive Hstatus.
  unfold vsts_subscription_check, Installation.get_client,
    Client.get_subscription, Client.update_subscription, getitem, subscript,
    getitem, emit, answer, datetime_now, raise, save_integration,
    mbind, mret, Action_bind, Action_ret.
  fold installation client instance. cbn beta iota.
  rewrite Hsub, Hid. cbn beta iota. rewrite Hlive, Hstatus. cbn beta iota.
  split; [|split].
  - intros Hne. rewrite bool_decide_false by done. by eexists.
  - intros -> Hupd. rewrite bool_decide_true by done.
    rewrite Hupd. cbn beta iota.
    eexists. split; [done|]. split; [done|].
    cbn [db set_db log integrations].
    exact (row_by_id_save
             {| Integration.id := Integration.id integration;
                Integration.provider := Integration.provider integration;
                Integration.metadata :=
                  <["subscription" := MDict (<["check" := STime (clock w)]> d)]>
                    (Integration.metadata integration) |}
             (integrations (db w))).
  - intros -> e Hupd. rewrite bool_decide_true by done.
    rewrite Hupd. by eexists.
Qed.

Lemma vsts_subscription_check_renews_iff_disabled_witness :
  let E := Sample.env true Sample.disabled in
  let w := Sample.world (Sample.store 0 1) [] in
  Sample.disabled !! "status" = Some (SStr "disabledBySystem") ∧
  ∃ w', vsts_subscription_check Sample.vsts 1 w = (w', inr tt) ∧
        events_since w w'
          [DbSave IntegrationM 7;
           ClientCall (update_subscription_ "example.visualstudio.com"
                         (SStr "sub-1"));
           ClientCall (get_subscription_ "example.visualstudio.com"
                         (SStr "sub-1"));
           InstallationCall get_client_] ∧
        row_by_id (integrations (db w')) 7 =
          Some {| Integration.id := 7;
                  Integration.provider := "vsts";
                  Integration.metadata :=
                    <["subscription" :=
                        MDict (<["check" := STime (clock w)]>
                                 {[ "id" := SStr "sub-1" ]})]>
                      (Integration.metadata Sample.vsts) |}.
Proof.
  intros E w. split; [reflexivity|].
  pose proof (@vsts_subscription_check_renews_iff_disabled E Sample.vsts 1 w
                {[ "id" := SStr "sub-1" ]} Sample.disabled (SStr "sub-1")
                (SStr "disabledBySystem")) as Hcheck.
  cbv zeta in Hcheck.
  destruct Hcheck as (_ & Hrenew & _); [reflexivity..|].
  apply Hrenew; reflexivity.
Defined.

(** ** Repository migration *)

(** C7: [migrate_repo] on a repository found in the store.  If it is
    DISABLED, the integration is found and the installation answers that
    it has access, the repository is afterwards VISIBLE, bound to the
    integration's id and with provider 'integrations:' followed by the
    integration's provider.  If its status is anything but DISABLED, its
    status afterwards is what it was, whatever else happens in the job. *)
Theorem migrate_repo_status `{Env} (repo_id integration_id organization_id : Z)
    (repo : Repository.t) (w : World) :
  row_by_id (repositories (db w)) repo_id = Some repo →
  let w' := fst (migrate_repo repo_id integration_id organization_id w) in
  (∀ integration,
     Repository.status repo = ObjectStatus_DISABLED →
     row_by_id (integrations (db w)) integration_id = Some integration →
     Installation.on_has_repo_access
       (get_installation integration (Some organization_id)) repo = inr true →
     ∃ repo', row_by_id (repositories (db w')) repo_id = Some repo' ∧
              Repository.status repo' = ObjectStatus_VISIBLE ∧
              Repository.integration_id repo' = Some (Integration.id integration) ∧
              Repository.provider repo' =
                Some ("integrations:" +:+ Integration.provider integration)) ∧
  (Repository.status repo ≠ ObjectStatus_DISABLED →
   ∃ repo', row_by_id (repositories (db w')) repo_id = Some repo' ∧
            Repository.status repo' = Repository.status repo).
Proof.
  intros Hrepo w'. pose proof (row_by_id_pk _ _ _ Hrepo) as Hpk.
  simpl in Hpk. subst w'.
  unfold migrate_repo, Installation.has_repo_access, Migrator_run,
    logger_info, save_repository, objects_get, emit, answer,
    mbind, mret, Action_bind, Action_ret.
  split.
  - intros integration Hdis Hint Haccess.
    pose proof (row_by_id_pk _ _ _ Hint) as Hipk. simpl in Hipk.
    rewrite Hint. step. rewrite Hrepo. step. rewrite Haccess. step.
    rewrite (bool_decide_true _ Hdis).
    eexists. split.
    + destruct (Repository.integration_id repo) as [old|];
        [destruct (negb (bool_decide (old = integration_id)))|];
        step;
        destruct (row_by_id (organizations (db w)) organization_id);
        try destruct (on_Migrator_run integration _);
        step; apply (row_by_id_save_at (A := Repository.t)); exact Hpk.
    + simpl. by rewrite Hipk.
  - intros Hne.
    destruct (row_by_id (integrations (db w)) integration_id) as [integration|];
      step; [|by eexists].
    rewrite Hrepo. step.
    destruct (Installation.on_has_repo_access _ repo) as [e|[|]];
      step; [by eexists| |by eexists].
    rewrite (bool_decide_false _ Hne).
    eexists. split.
    + destruct (Repository.integration_id repo) as [old|];
        [destruct (negb (bool_decide (old = integration_id)))|];
        step;
        destruct (row_by_id (organizations (db w)) organization_id);
        try destruct (on_Migrator_run integration _);
        step; apply (row_by_id_save_at (A := Repository.t)); exact Hpk.
    + done.
Qed.

Lemma migrate_repo_status_witness :
  let E := Sample.env true Sample.healthy in
  let w := Sample.world (Sample.store 0 1) [] in
  row_by_id (repositories (db w)) 9 = Some (Sample.repo 1) ∧
  ∃ repo',
    row_by_id (repositories (db (fst (migrate_repo 9 7 1 w)))) 9 = Some repo' ∧
    Repository.status repo' = ObjectStatus_VISIBLE ∧
    Repository.integration_id repo' = Some 7 ∧
    Repository.provider repo' = Some "integrations:vsts".
Proof.
  intros E w. split; [reflexivity|].
  apply (proj1 (@migrate_repo_status E 9 7 1 (Sample.repo 1) w eq_refl)
           Sample.vsts); reflexivity.
Defined.

(** ** The subscription sweep *)

Lemma keeps_queue_ret {A} (x : A) : keeps_queue (mret x).
Proof. by intros w. Qed.

Lemma keeps_queue_raise {A} (e : Exn) : keeps_queue (raise (A := A) e).
Proof. by intros w. Qed.

Lemma keeps_queue_emit (e : Event) : keeps_queue (emit e).
Proof. by intros w. Qed.

Lemma keeps_queue_answer {A} (r : Exn + A) : keeps_queue (answer r).
Proof. by intros w. Qed.

Lemma keeps_queue_bind {A B} (m : Action A) (f : A → Action B) :
  keeps_queue m → (∀ x, keeps_queue (f x)) → keeps_queue (m ≫= f).
Proof.
  intros Hm Hf w. rewrite bind_unfold. specialize (Hm w).
  destruct (m w) as [w1 [e|x]]; simpl in *; [done|].
  by rewrite Hf.
Qed.

Lemma keeps_queue_try {A} (m h : Action A) (e : Exn) :
  keeps_queue m → keeps_queue h → keeps_queue (try_except m e h).
Proof.
  intros Hm Hh w. unfold try_except. specialize (Hm w).
  destruct (m w) as [w1 [e'|x]]; simpl in *; [|done].
  destruct (bool_decide (e' = e)); [by rewrite Hh|done].
Qed.

Lemma keeps_queue_getitem {V} (d : gmap string V) (k : string) :
  keeps_queue (getitem d k).
Proof. unfold getitem. by destruct (d !! k). Qed.

Lemma keeps_queue_subscript (v : MetaValue) (k : string) :
  keeps_queue (subscript v k).
Proof. destruct v; [done|apply keeps_queue_getitem]. Qed.

Lemma keeps_queue_for_each {A} (xs : list A) (body : A → Action unit) :
  (∀ x, keeps_queue (body x)) → keeps_queue (for_each xs body).
Proof.
  intros Hbody. induction xs as [|x xs IH]; simpl; [done|].
  by apply keeps_queue_bind.
Qed.

Lemma keeps_queue_now : keeps_queue datetime_now.
Proof. by intros w. Qed.

Lemma keeps_queue_save_integration (integration : Integration.t) :
  keeps_queue (save_integration integration).
Proof. by intros w. Qed.

Create HintDb queue.

#[local] Hint Resolve keeps_queue_ret keeps_queue_raise keeps_queue_emit
  keeps_queue_answer keeps_queue_getitem keeps_queue_subscript
  keeps_queue_now keeps_queue_save_integration : queue.

(** Goes through a body made of binds, [try] blocks and branches whose
    leaves are in the [queue] database. *)
Ltac keeps_queue_tac :=
  repeat first
    [ apply keeps_queue_bind; [|intros ?]
    | apply keeps_queue_try
    | solve [auto with queue]
    | match goal with
      | |- keeps_queue (if ?b then _ else _) => destruct b
      | |- keeps_queue (match ?v with _ => _ end) => destruct v
      end ].

Lemma keeps_queue_vsts_subscription_check `{Env} (integration : Integration.t)
    (organization_id : Z) :
  keeps_queue (vsts_subscription_check integration organization_id).
Proof.
  unfold vsts_subscription_check, Installation.get_client,
    Client.get_subscription, Client.update_subscription.
  keeps_queue_tac.
Qed.

Lemma keeps_queue_sweep_due `{Env} (integration : Integration.t)
    (update_interval : Z) :
  keeps_queue (sweep_due integration update_interval).
Proof. unfold sweep_due, check_after. keeps_queue_tac. Qed.

(** The sweep never submits a job: whatever the store and the clock, the
    queue after [kickoff_vsts_subscription_check] is the queue before. *)
Lemma kickoff_vsts_subscription_check_submits_nothing `{Env} :
  keeps_queue kickoff_vsts_subscription_check.
Proof.
  unfold kickoff_vsts_subscription_check.
  apply keeps_queue_bind; [done|intros rows].
  apply keeps_queue_bind; [done|intros now].
  apply keeps_queue_for_each. intros [oi integration]. simpl.
  apply keeps_queue_bind; [apply keeps_queue_sweep_due|].
  intros [|]; [|auto with queue].
  apply keeps_queue_bind;
    [apply keeps_queue_vsts_subscription_check|auto with queue].
Qed.

(** C5 (code bug): a VSTS integration whose subscription has never been
    checked is due, yet the sweep submits no job for it: it runs the check
    in line (the client is asked for the subscription), then fails with
    [AttributeError] on the result of that call, and the queue is still
    empty. *)
Theorem kickoff_vsts_subscription_check_stale_raises :
  let E := Sample.env true Sample.healthy in
  let w := Sample.world (Sample.store 0 1) [] in
  Integration.metadata Sample.vsts !! "subscription"
    = Some (MDict {[ "id" := SStr "sub-1" ]}) ∧
  snd (sweep_due Sample.vsts (clock w - timedelta_hours 6) w) = inr true ∧
  snd (kickoff_vsts_subscription_check w) = inl AttributeError ∧
  queue (fst (kickoff_vsts_subscription_check w)) = [] ∧
  trace (fst (kickoff_vsts_subscription_check w)) =
    [ClientCall (get_subscription_ "example.visualstudio.com" (SStr "sub-1"));
     InstallationCall get_client_;
     DbFilter OrganizationIntegrationM].
Proof. vm_compute. by repeat split. Qed.

(** What the two [try] blocks of the sweep decide, for a subscription
    dict [d]: due when 'check' is absent or not after [update_interval]. *)
Lemma sweep_due_dict `{Env} (integration : Integration.t)
    (d : gmap string Scalar) (update_interval : Z) (w : World) :
  Integration.metadata integration !! "subscription" = Some (MDict d) →
  sweep_due integration update_interval w =
  (w, match d !! "check" with
      | None => inr true
      | Some (STime t) => inr (negb (bool_decide (t > update_interval)))
      | Some (SStr _) => inl TypeError
      end).
Proof.
  intros Hsub.
  unfold sweep_due, check_after, try_except, subscript, getitem, raise,
    mbind, mret, Action_bind, Action_ret.
  rewrite Hsub. cbn beta iota.
  by destruct (d !! "check") as [[s|t]|].
Qed.

(** An integration without a subscription in its metadata is skipped,
    without error. *)
Lemma sweep_due_no_subscription `{Env} (integration : Integration.t)
    (update_interval : Z) (w : World) :
  Integration.metadata integration !! "subscription" = None →
  sweep_due integration update_interval w = (w, inr false).
Proof.
  intros Hsub.
  unfold sweep_due, try_except, getitem, raise,
    mbind, mret, Action_bind, Action_ret.
  by rewrite Hsub.
Qed.

(** The frame of a healthy check: for an integration that passes the
    sweep's due test at time [t1], a check that finds a live status other
    than 'disabledBySystem' changes nothing in the store, so the
    integration's metadata and its 'check' timestamp are what they were;
    the integration is still among the sweep's rows and still passes the
    due test at every later time [t2]. *)
Theorem healthy_check_keeps_integration_due `{Env}
    (oi : OrganizationIntegration.t) (integration : Integration.t) (w : World)
    (d live : gmap string Scalar) (sid status : Scalar) (t1 : Z) :
  let organization_id := OrganizationIntegration.organization_id oi in
  let installation := get_installation integration (Some organization_id) in
  let client := Installation.on_get_client installation in
  let instance := Installation.instance installation in
  (oi, integration) ∈ vsts_organization_integrations (db w) →
  snd (sweep_due integration (t1 - timedelta_hours 6) w) = inr true →
  Integration.metadata integration !! "subscription" = Some (MDict d) →
  d !! "id" = Some sid →
  Client.on_get_subscription client instance sid = inr live →
  live !! "status" = Some status →
  status ≠ SStr "disabledBySystem" →
  ∃ w', vsts_subscription_check integration organization_id w = (w', inr tt) ∧
        db w' = db w ∧
        (oi, integration) ∈ vsts_organization_integrations (db w') ∧
        ∀ t2 w2, t1 ≤ t2 →
          snd (sweep_due integration (t2 - timedelta_hours 6) w2) = inr true.
Proof.
  intros organization_id installation client instance
    Hrow Hdue Hsub Hid Hlive Hstatus Hne.
  rewrite (vsts_subscription_check_other_status integration organization_id w
             d live sid status Hsub Hid Hlive Hstatus Hne).
  eexists. split; [done|]. split; [done|]. split; [exact Hrow|].
  intros t2 w2 Hle. rewrite (sweep_due_dict _ d) in Hdue |- * by done.
  simpl in *. destruct (d !! "check") as [[s|t]|]; [done| |done].
  f_equal. injection Hdue as Hdue.
  apply negb_true_iff, bool_decide_eq_false in Hdue.
  apply negb_true_iff, bool_decide_eq_false. lia.
Qed.

Lemma healthy_check_keeps_integration_due_witness :
  let E := Sample.env true Sample.healthy in
  let w := Sample.world (Sample.store 0 1) [] in
  let oi := {| OrganizationIntegration.id := 1;
               OrganizationIntegration.organization_id := 1;
               OrganizationIntegration.integration_id := 7 |} in
  (oi, Sample.vsts) ∈ vsts_organization_integrations (db w) ∧
  snd (sweep_due Sample.vsts (clock w - timedelta_hours 6) w) = inr true ∧
  Sample.healthy !! "status" = Some (SStr "enabled") ∧
  ∃ w', vsts_subscription_check Sample.vsts 1 w = (w', inr tt) ∧
        db w' = db w ∧
        (oi, Sample.vsts) ∈ vsts_organization_integrations (db w') ∧
        ∀ t2 w2, clock w ≤ t2 →
          snd (sweep_due Sample.vsts (t2 - timedelta_hours 6) w2) = inr true.
Proof.
  intros E w oi.
  assert ((oi, Sample.vsts) ∈ vsts_organization_integrations (db w)) as Hrow
    by (vm_compute; apply list_elem_of_here).
  split; [exact Hrow|]. split; [reflexivity|]. split; [reflexivity|].
  apply (@healthy_check_keeps_integration_due E oi Sample.vsts w
           {[ "id" := SStr "sub-1" ]} Sample.healthy (SStr "sub-1")
           (SStr "enabled") (clock w) Hrow);
    [reflexivity..|discriminate].
Defined.

(** C10 (code bug): two VSTS integrations, both healthy and never
    checked.  The second passes the due test now and a day later, and its
    check would leave the store as it is; yet neither the sweep now nor
    the sweep a day later selects it: each runs the first integration's
    check in line, fails with [AttributeError], and ends there, the second
    integration's subscription never asked for and nothing queued. *)
Theorem sweep_never_reaches_second_due_integration :
  let E := Sample.env true Sample.healthy in
  let first := Scenario.never_checked 7 "sub-a" in
  let second := Scenario.never_checked 8 "sub-b" in
  let w := Sample.world (Scenario.sweep_store [first; second]) [] in
  let sweep1 := kickoff_vsts_subscription_check w in
  let later := Scenario.a_day_later (fst sweep1) in
  let sweep2 := kickoff_vsts_subscription_check later in
  vsts_organization_integrations (db w) =
    [(Scenario.binding 7 7, first); (Scenario.binding 8 8, second)] ∧
  snd (sweep_due second (clock w - timedelta_hours 6) w) = inr true ∧
  snd (sweep_due second (clock later - timedelta_hours 6) later) = inr true ∧
  vsts_subscription_check second 1 w =
    (log (ClientCall (get_subscription_ "example.visualstudio.com"
                        (SStr "sub-b")))
       (log (InstallationCall get_client_) w), inr tt) ∧
  snd sweep1 = inl AttributeError ∧
  snd sweep2 = inl AttributeError ∧
  db (fst sweep2) = db w ∧
  queue (fst sweep2) = [] ∧
  trace (fst sweep2) =
    [ClientCall (get_subscription_ "example.visualstudio.com" (SStr "sub-a"));
     InstallationCall get_client_;
     DbFilter OrganizationIntegrationM;
     ClientCall (get_subscription_ "example.visualstudio.com" (SStr "sub-a"));
     InstallationCall get_client_;
     DbFilter OrganizationIntegrationM].
Proof. vm_compute. by repeat split. Qed.

(** * Further properties of the tasks *)

(** ** What a task leaves alone *)

Section Keeps.
Context {X : Type} (f : World → X).
Hypothesis f_log : ∀ e w, f (log e w) = f w.

Lemma keeps_ret {A} (x : A) : keeps f (mret x).
Proof. by intros w. Qed.

Lemma keeps_raise {A} (e : Exn) : keeps f (raise (A := A) e).
Proof. by intros w. Qed.

Lemma keeps_answer {A} (r : Exn + A) : keeps f (answer r).
Proof. by intros w. Qed.

Lemma keeps_now : keeps f datetime_now.
Proof. by intros w. Qed.

Lemma keeps_emit (e : Event) : keeps f (emit e).
Proof. intros w. apply f_log. Qed.

Lemma keeps_bind {A B} (m : Action A) (k : A → Action B) :
  keeps f m → (∀ x, keeps f (k x)) → keeps f (m ≫= k).
Proof.
  intros Hm Hk w. rewrite bind_unfold. specialize (Hm w).
  destruct (m w) as [w1 [e|x]]; simpl in *; [done|].
  by rewrite Hk.
Qed.

Lemma keeps_try {A} (m h : Action A) (e : Exn) :
  keeps f m → keeps f h → keeps f (try_except m e h).
Proof.
  intros Hm Hh w. unfold try_except. specialize (Hm w).
  destruct (m w) as [w1 [e'|x]]; simpl in *; [|done].
  destruct (bool_decide (e' = e)); [by rewrite Hh|done].
Qed.

Lemma keeps_getitem {V} (d : gmap string V) (k : string) :
  keeps f (getitem d k).
Proof. unfold getitem. destruct (d !! k); [apply keeps_ret|apply keeps_raise]. Qed.

Lemma keeps_subscript (v : MetaValue) (k : string) : keeps f (subscript v k).
Proof. destruct v; [apply keeps_raise|apply keeps_getitem]. Qed.

Lemma keeps_first_row {A} (rows : list A) : keeps f (first_row rows).
Proof. destruct rows; [apply keeps_raise|apply keeps_ret]. Qed.

Lemma keeps_objects_get {A} `{Model A} (table : DB → list A) (id : Z) :
  keeps f (objects_get table id).
Proof.
  intros w. unfold objects_get.
  destruct (row_by_id (table (db w)) id); apply f_log.
Qed.

Lemma keeps_objects_filter {A} `{Model A} (table : DB → list A) (p : A → bool) :
  keeps f (objects_filter table p).
Proof. intros w. apply f_log. Qed.

Lemma keeps_for_each {A} (xs : list A) (body : A → Action unit) :
  (∀ x, keeps f (body x)) → keeps f (for_each xs body).
Proof.
  intros Hbody. induction xs as [|x xs IH]; simpl; [apply keeps_ret|].
  by apply keeps_bind.
Qed.

End Keeps.

(** Goes through a body made of binds, [try] blocks, loops and
    branches, down to the primitive actions. *)
Ltac keeps_leaf :=
  first
    [ apply keeps_ret | apply keeps_raise | apply keeps_answer
    | apply keeps_now | apply keeps_getitem | apply keeps_subscript
    | apply keeps_first_row
    | apply keeps_emit; done
    | apply keeps_objects_get; done
    | apply keeps_objects_filter; done ].

Ltac keeps_tac :=
  repeat first
    [ apply keeps_bind; [|intros ?]
    | apply keeps_try
    | apply keeps_for_each; intros ?
    | keeps_leaf
    | match goal with
      | |- keeps _ (if ?b then _ else _) => destruct b
      | |- keeps _ (match ?v with _ => _ end) => destruct v
      | |- keeps _ (let _ := _ in _) => cbv zeta
      end ].

Ltac unfold_tasks :=
  unfold post_comment, sync_metadata, sync_assignee_outbound,
    sync_status_outbound, kick_off_status_syncs, migrate_repo,
    vsts_subscription_check,
    Installation.should_sync, Installation.create_comment,
    Installation.sync_assignee_outbound, Installation.sync_status_outbound,
    Installation.sync_metadata, Installation.has_repo_access,
    Installation.get_client, Client.get_subscription,
    Client.update_subscription, Migrator_run, analytics_record, logger_info.

Lemma keeps_db_apply_async (call : TaskCall) (budget : nat) :
  keeps db (apply_async call budget).
Proof. by intros w. Qed.

Lemma keeps_queue_save_repository (repo : Repository.t) :
  keeps queue (save_repository repo).
Proof. by intros w. Qed.

Lemma keeps_queue_of_save_integration (integration : Integration.t) :
  keeps queue (save_integration integration).
Proof. by intros w. Qed.

(** X1: [post_comment], [sync_assignee_outbound], [sync_status_outbound]
    and [kick_off_status_syncs] never change the store: whatever the
    store, the collaborators' answers and the path taken (normal return
    or exception), the store after the task is the store before. *)
Theorem issue_sync_tasks_keep_store `{Env} (call : TaskCall) :
  is_issue_sync_task call = true → keeps db (body_of call).
Proof.
  destruct call; simpl; try discriminate; intros _; unfold_tasks;
    keeps_tac; apply keeps_db_apply_async.
Qed.

Lemma issue_sync_tasks_keep_store_witness :
  let E := Sample.env true Sample.healthy in
  let w := Sample.world (Sample.store 0 1) [] in
  is_issue_sync_task (PostComment 3 {[ "text" := "hello" ]} 11) = true ∧
  db (fst (post_comment 3 {[ "text" := "hello" ]} 11 w)) = db w.
Proof.
  intros E w. split; [reflexivity|].
  exact (@issue_sync_tasks_keep_store E
           (PostComment 3 {[ "text" := "hello" ]} 11) eq_refl w).
Defined.

(** X2: Only [kick_off_status_syncs] submits jobs: every other task leaves
    the queue as it found it on every path; for the sweep this includes
    the statement that was meant to submit the checks. *)
Theorem only_kick_off_status_syncs_submits `{Env} (call : TaskCall) :
  submits_jobs call = false → keeps queue (body_of call).
Proof.
  destruct call; simpl; try discriminate; intros _;
    try (unfold_tasks; keeps_tac;
         first [apply keeps_queue_save_repository
               |apply keeps_queue_of_save_integration]).
Qed.

Lemma only_kick_off_status_syncs_submits_witness :
  let E := Sample.env true Sample.healthy in
  let w := Sample.world (Sample.store 1 1) [] in
  submits_jobs (MigrateRepo 9 7 1) = false ∧
  queue (fst (migrate_repo 9 7 1 w)) = queue w.
Proof.
  intros E w. split; [reflexivity|].
  exact (@only_kick_off_status_syncs_submits E (MigrateRepo 9 7 1) eq_refl w).
Defined.

(** ** Saving rows *)

Lemma row_by_id_save_other {A} `{Model A} (r : A) (rows : list A) (id : Z) :
  id ≠ pk r → row_by_id (save_row r rows) id = row_by_id rows id.
Proof.
  intros Hne. unfold save_row. destruct (row_by_id rows (pk r)) eqn:Hfound.
  - clear Hfound. unfold row_by_id.
    induction rows as [|y rows IH]; simpl; [done|].
    destruct (bool_decide (pk y = pk r)) eqn:Hy.
    + apply bool_decide_eq_true in Hy.
      rewrite (bool_decide_false (pk r = id)) by done.
      rewrite (bool_decide_false (pk y = id)) by congruence. exact IH.
    + destruct (bool_decide (pk y = id)); [done|exact IH].
  - unfold row_by_id in *. clear Hfound.
    induction rows as [|y rows IH]; simpl.
    + by rewrite bool_decide_false.
    + destruct (bool_decide (pk y = id)); [done|exact IH].
Qed.

Lemma save_row_found_length {A} `{Model A} (r x : A) (rows : list A) :
  row_by_id rows (pk r) = Some x → length (save_row r rows) = length rows.
Proof. unfold save_row. intros ->. apply length_map. Qed.

Lemma save_row_absent_map {A} `{Model A} (r : A) (rows : list A) :
  row_by_id rows (pk r) = None →
  List.map (λ x, if bool_decide (pk x = pk r) then r else x) rows = rows.
Proof.
  unfold row_by_id. induction rows as [|y rows IH]; simpl; [done|].
  destruct (bool_decide (pk y = pk r)); [done|].
  intros Hnone. by rewrite IH.
Qed.

(** Saving the same row twice is saving it once. *)
Lemma save_row_again {A} `{Model A} (r : A) (rows : list A) :
  save_row r (save_row r rows) = save_row r rows.
Proof.
  unfold save_row at 1. rewrite row_by_id_save.
  unfold save_row. destruct (row_by_id rows (pk r)) eqn:Hfound.
  - rewrite List.map_map. apply List.map_ext. intros y.
    destruct (bool_decide (pk y = pk r)) eqn:Hy.
    + by rewrite bool_decide_true.
    + by rewrite Hy.
  - rewrite List.map_app. simpl. rewrite bool_decide_true by done.
    by rewrite save_row_absent_map.
Qed.

(** ** Repository migration, on every path *)

Ltac run_task :=
  unfold_tasks;
  unfold objects_get, objects_filter, emit, answer, subscript, getitem, raise,
    datetime_now, save_repository, save_integration,
    mbind, mret, Action_bind, Action_ret.

(** The store [migrate_repo] leaves: the repository rewritten and saved
    when the integration and the repository are found and the installation
    grants access, the store as it was on every other path. *)
Lemma migrate_repo_db `{Env} (repo_id integration_id organization_id : Z)
    (w : World) :
  db (fst (migrate_repo repo_id integration_id organization_id w)) =
  match row_by_id (integrations (db w)) integration_id with
  | Some integration =>
    match row_by_id (repositories (db w)) repo_id with
    | Some repo =>
      match Installation.on_has_repo_access
              (get_installation integration (Some organization_id)) repo with
      | inr true =>
        set_repositories
          (save_row (migrated integration_id integration repo)
             (repositories (db w)))
          (db w)
      | _ => db w
      end
    | None => db w
    end
  | None => db w
  end.
Proof.
  run_task.
  destruct (row_by_id (integrations (db w)) integration_id) as [integration|];
    step; [|done].
  destruct (row_by_id (repositories (db w)) repo_id) as [repo|]; step; [|done].
  destruct (Installation.on_has_repo_access _ repo) as [e|[|]]; step;
    [done| |done].
  destruct (Repository.integration_id repo) as [old|];
    [destruct (negb (bool_decide (old = integration_id)))|];
    step;
    destruct (row_by_id (organizations (db w)) organization_id);
    try destruct (on_Migrator_run integration _);
    reflexivity.
Qed.

Lemma migrated_pk `{Env} (integration_id : Z) (integration : Integration.t)
    (repo : Repository.t) :
  Repository.id (migrated integration_id integration repo) = Repository.id repo.
Proof. unfold migrated. simpl. by case_bool_decide. Qed.

(** Migrating a migrated row gives the same row. *)
Lemma migrated_again `{Env} (integration_id : Z) (integration : Integration.t)
    (repo : Repository.t) :
  migrated integration_id integration (migrated integration_id integration repo)
  = migrated integration_id integration repo.
Proof.
  unfold migrated. simpl.
  destruct (bool_decide (Repository.status repo = ObjectStatus_DISABLED)) eqn:Hd;
    simpl.
  - by destruct (bool_decide (ObjectStatus_VISIBLE = ObjectStatus_DISABLED)).
  - by rewrite Hd.
Qed.

(** X3: Once [migrate_repo] has saved the repository, running it again with
    the same arguments changes nothing more: the store after the second
    run is the store after the first, whatever the installation answers
    the second time. *)
Theorem migrate_repo_idempotent `{Env}
    (repo_id integration_id organization_id : Z)
    (integration : Integration.t) (repo : Repository.t) (w : World) :
  row_by_id (integrations (db w)) integration_id = Some integration →
  row_by_id (repositories (db w)) repo_id = Some repo →
  Installation.on_has_repo_access
    (get_installation integration (Some organization_id)) repo = inr true →
  let w1 := fst (migrate_repo repo_id integration_id organization_id w) in
  let w2 := fst (migrate_repo repo_id integration_id organization_id w1) in
  db w2 = db w1.
Proof.
  intros Hint Hrepo Haccess w1 w2.
  pose proof (row_by_id_pk _ _ _ Hrepo) as Hpk. simpl in Hpk.
  assert (db w1 =
          set_repositories
            (save_row (migrated integration_id integration repo)
               (repositories (db w)))
            (db w)) as Hw1.
  { subst w1. by rewrite migrate_repo_db, Hint, Hrepo, Haccess. }
  subst w2. rewrite migrate_repo_db, Hw1. simpl. rewrite Hint.
  rewrite (row_by_id_save_at (A := Repository.t)
             (migrated integration_id integration repo) _ repo_id)
    by (simpl; by rewrite migrated_pk).
  destruct (Installation.on_has_repo_access _
              (migrated integration_id integration repo)) as [e|[|]];
    [done| |done].
  by rewrite migrated_again, save_row_again.
Qed.

Lemma migrate_repo_idempotent_witness :
  let E := Sample.env true Sample.healthy in
  let w := Sample.world (Sample.store 0 1) [] in
  row_by_id (repositories (db w)) 9 = Some (Sample.repo 1) ∧
  db (fst (migrate_repo 9 7 1 (fst (migrate_repo 9 7 1 w))))
    = db (fst (migrate_repo 9 7 1 w)).
Proof.
  intros E w. split; [reflexivity|].
  apply (@migrate_repo_idempotent E 9 7 1 Sample.vsts (Sample.repo 1) w);
    reflexivity.
Defined.

(** X4: [migrate_repo] touches one row of one table: every other table is
    what it was, the repositories table has as many rows as before, and
    every repository with another id is what it was. *)
Theorem migrate_repo_frame `{Env} (repo_id integration_id organization_id : Z)
    (w : World) :
  let d := db w in
  let d' := db (fst (migrate_repo repo_id integration_id organization_id w)) in
  external_issues d' = external_issues d ∧
  integrations d' = integrations d ∧
  organizations d' = organizations d ∧
  users d' = users d ∧
  groups d' = groups d ∧
  group_links d' = group_links d ∧
  organization_integrations d' = organization_integrations d ∧
  length (repositories d') = length (repositories d) ∧
  ∀ id, id ≠ repo_id →
        row_by_id (repositories d') id = row_by_id (repositories d) id.
Proof.
  intros d d'. subst d'. rewrite migrate_repo_db. fold d.
  destruct (row_by_id (integrations d) integration_id) as [integration|];
    [|done].
  destruct (row_by_id (repositories d) repo_id) as [repo|] eqn:Hrepo; [|done].
  destruct (Installation.on_has_repo_access _ repo) as [e|[|]]; [done| |done].
  pose proof (row_by_id_pk _ _ _ Hrepo) as Hpk. simpl in Hpk.
  simpl. repeat split.
  - eapply (save_row_found_length (A := Repository.t)).
    simpl. rewrite migrated_pk, Hpk. exact Hrepo.
  - intros id Hne. apply (row_by_id_save_other (A := Repository.t)).
    simpl. by rewrite migrated_pk, Hpk.
Qed.

Lemma events_since_refl (w : World) : events_since w w [].
Proof. reflexivity. Qed.

Lemma events_since_log (e : Event) (w w' : World) (new : list Event) :
  events_since w w' new → events_since w (log e w') (e :: new).
Proof. unfold events_since. simpl. by intros ->. Qed.

Lemma events_since_set_db (d : DB) (w w' : World) (new : list Event) :
  events_since w w' new → events_since w (set_db d w') new.
Proof. done. Qed.

Lemma events_since_push_job (j : Job) (w w' : World) (new : list Event) :
  events_since w w' new → events_since w (push_job j w') new.
Proof. done. Qed.

(** From an empty journal, the new events are the whole journal. *)
Lemma events_since_fresh (w w' : World) (new : list Event) :
  trace w = [] → events_since w w' new → new = trace w'.
Proof. unfold events_since. intros -> ->. by rewrite app_nil_r. Qed.

(** Reads the new events off a world built from [w] by [log], [set_db]
    and [push_job]. *)
Ltac journal :=
  repeat first
    [ apply events_since_log | apply events_since_set_db
    | apply events_since_push_job ];
  apply events_since_refl.

Lemma migrate_repo_frame_witness :
  let E := Sample.env true Sample.healthy in
  let w := Sample.world (Sample.store 0 1) [] in
  let d' := db (fst (migrate_repo 9 7 1 w)) in
  (10 ≠ 9) ∧
  integrations d' = integrations (db w) ∧
  length (repositories d') = length (repositories (db w)) ∧
  row_by_id (repositories d') 10 = row_by_id (repositories (db w)) 10.
Proof.
  intros E w d'.
  destruct (@migrate_repo_frame E 9 7 1 w)
    as (_ & Hint & _ & _ & _ & _ & _ & Hlen & Hother).
  split; [done|]. split; [exact Hint|]. split; [exact Hlen|].
  apply Hother. done.
Defined.

(** X5: [migrate_repo] acts only with access: if the store changed or the
    migrator was handed the integration, then the integration and the
    repository were found and the installation answered that it has
    access to the repository. *)
Theorem migrate_repo_acts_only_with_access `{Env}
    (repo_id integration_id organization_id : Z) (w : World) :
  let w' := fst (migrate_repo repo_id integration_id organization_id w) in
  ∃ new, events_since w w' new ∧
    (db w' ≠ db w ∨ existsb is_migrator_run new = true →
     ∃ integration repo,
       row_by_id (integrations (db w)) integration_id = Some integration ∧
       row_by_id (repositories (db w)) repo_id = Some repo ∧
       Installation.on_has_repo_access
         (get_installation integration (Some organization_id)) repo
         = inr true).
Proof.
  intros w'. subst w'. run_task.
  destruct (row_by_id (integrations (db w)) integration_id)
    as [integration|] eqn:Hint; step.
  2:{ eexists. split; [journal|]. by intros [?|?]. }
  destruct (row_by_id (repositories (db w)) repo_id) as [repo|] eqn:Hrepo; step.
  2:{ eexists. split; [journal|]. by intros [?|?]. }
  destruct (Installation.on_has_repo_access _ repo) as [e|[|]] eqn:Haccess;
    step.
  1,3: eexists; (split; [journal|]); by intros [?|?].
  destruct (Repository.integration_id repo) as [old|];
    [destruct (negb (bool_decide (old = integration_id)))|];
    step;
    destruct (row_by_id (organizations (db w)) organization_id);
    try destruct (on_Migrator_run integration _);
    step; (eexists; split; [journal|]); intros _; by exists integration, repo.
Qed.

Lemma migrate_repo_acts_only_with_access_witness :
  let E := Sample.env true Sample.healthy in
  let w := Sample.world (Sample.store 0 1) [] in
  db (fst (migrate_repo 9 7 1 w)) ≠ db w ∧
  ∃ integration repo,
    row_by_id (integrations (db w)) 7 = Some integration ∧
    row_by_id (repositories (db w)) 9 = Some repo ∧
    Installation.on_has_repo_access (get_installation integration (Some 1)) repo
      = inr true.
Proof.
  intros E w.
  assert (db (fst (migrate_repo 9 7 1 w)) ≠ db w) as Hchanged
    by (vm_compute; congruence).
  split; [exact Hchanged|].
  destruct (@migrate_repo_acts_only_with_access E 9 7 1 w)
    as (new & _ & Hacts).
  apply Hacts. by left.
Defined.

(** X6: [migrate_repo] saves before it hands off: when the organization is
    gone, the task raises [Organization.DoesNotExist] with the repository
    already rewritten and saved, and the migrator is not run. *)
Theorem migrate_repo_saved_before_handoff `{Env}
    (repo_id integration_id organization_id : Z)
    (integration : Integration.t) (repo : Repository.t) (w : World) :
  row_by_id (integrations (db w)) integration_id = Some integration →
  row_by_id (repositories (db w)) repo_id = Some repo →
  Installation.on_has_repo_access
    (get_installation integration (Some organization_id)) repo = inr true →
  row_by_id (organizations (db w)) organization_id = None →
  let r := migrate_repo repo_id integration_id organization_id w in
  snd r = inl (DoesNotExist OrganizationM) ∧
  row_by_id (repositories (db (fst r))) repo_id
    = Some (migrated integration_id integration repo) ∧
  ∃ new, events_since w (fst r) new ∧
         existsb is_entity_write new = true ∧
         existsb is_migrator_run new = false.
Proof.
  intros Hint Hrepo Haccess Horg r.
  pose proof (row_by_id_pk _ _ _ Hrepo) as Hpk. simpl in Hpk.
  split; [|split].
  - subst r. run_task. rewrite Hint. step. rewrite Hrepo. step.
    rewrite Haccess. step.
    destruct (Repository.integration_id repo) as [old|];
      [destruct (negb (bool_decide (old = integration_id)))|];
      step; by rewrite Horg.
  - subst r. rewrite migrate_repo_db, Hint, Hrepo, Haccess. simpl.
    apply (row_by_id_save_at (A := Repository.t)). simpl.
    by rewrite migrated_pk.
  - subst r. run_task. rewrite Hint. step. rewrite Hrepo. step.
    rewrite Haccess. step.
    destruct (Repository.integration_id repo) as [old|];
      [destruct (negb (bool_decide (old = integration_id)))|];
      step; rewrite Horg; step; (eexists; split; [journal|]); done.
Qed.

Lemma migrate_repo_saved_before_handoff_witness :
  let E := Sample.env true Sample.healthy in
  let w := Sample.world (Sample.store 0 1) [] in
  row_by_id (organizations (db w)) 404 = None ∧
  snd (migrate_repo 9 7 404 w) = inl (DoesNotExist OrganizationM) ∧
  row_by_id (repositories (db (fst (migrate_repo 9 7 404 w)))) 9
    = Some (migrated 7 Sample.vsts (Sample.repo 1)).
Proof.
  intros E w. split; [reflexivity|].
  destruct (@migrate_repo_saved_before_handoff E 9 7 404 Sample.vsts
              (Sample.repo 1) w eq_refl eq_refl eq_refl eq_refl)
    as (Hraise & Hsaved & _).
  by split.
Defined.

(** X7: With access granted, [migrate_repo] logs
    'repo.migration.integration-change' exactly when the repository was
    already bound to an integration and that integration is another one;
    a repository bound to none, or to this one, is migrated without that
    entry. *)
Theorem migrate_repo_logs_integration_change `{Env}
    (repo_id integration_id organization_id : Z)
    (integration : Integration.t) (repo : Repository.t) (w : World) :
  row_by_id (integrations (db w)) integration_id = Some integration →
  row_by_id (repositories (db w)) repo_id = Some repo →
  Installation.on_has_repo_access
    (get_installation integration (Some organization_id)) repo = inr true →
  ∃ new,
    events_since w (fst (migrate_repo repo_id integration_id organization_id w))
      new ∧
    existsb is_integration_change_log new =
      match Repository.integration_id repo with
      | Some old => negb (bool_decide (old = integration_id))
      | None => false
      end.
Proof.
  intros Hint Hrepo Haccess.
  run_task. rewrite Hint. step. rewrite Hrepo. step. rewrite Haccess. step.
  destruct (Repository.integration_id repo) as [old|];
    [destruct (negb (bool_decide (old = integration_id)))|];
    step;
    destruct (row_by_id (organizations (db w)) organization_id);
    try destruct (on_Migrator_run integration _);
    step; (eexists; split; [journal|]); reflexivity.
Qed.

Lemma migrate_repo_logs_integration_change_witness :
  let E := Sample.env true Sample.healthy in
  let w := Sample.world (Sample.store 0 1) [] in
  Repository.integration_id (Sample.repo 1) = None ∧
  ∃ new, events_since w (fst (migrate_repo 9 7 1 w)) new ∧
         existsb is_integration_change_log new = false.
Proof.
  intros E w. split; [reflexivity|].
  apply (@migrate_repo_logs_integration_change E 9 7 1 Sample.vsts
           (Sample.repo 1) w); reflexivity.
Defined.

(** ** Subscription check, on every path *)

(** Splits the goal on the next thing the body branches on. *)
Ltac split_path :=
  match goal with
  | |- context [match ?x with _ => _ end] =>
    lazymatch x with
    | context [match _ with _ => _ end] => fail
    | _ => destruct x eqn:?
    end
  end.

Ltac split_paths := repeat (step; split_path); step.

(** [vsts_subscription_check] writes at most one row: either the store
    is what it was, or the integrations table has the renewed integration
    saved under the integration's id, and nothing else changed. *)
Lemma vsts_subscription_check_db `{Env} (integration : Integration.t)
    (organization_id : Z) (w : World) :
  let d' := db (fst (vsts_subscription_check integration organization_id w)) in
  d' = db w ∨
  ∃ d, Integration.metadata integration !! "subscription" = Some (MDict d) ∧
       d' = set_integrations
              (save_row (renewed integration d (clock w)) (integrations (db w)))
              (db w).
Proof.
  intros d'. subst d'. run_task. cbv zeta.
  destruct (Integration.metadata integration !! "subscription")
    as [[v|d]|] eqn:Hsub; step; [by left| |by left].
  destruct (d !! "id") as [sid|]; step; [|by left].
  destruct (Client.on_get_subscription _ _ sid) as [e|live]; step; [by left|].
  destruct (live !! "status") as [status|]; step; [|by left].
  destruct (bool_decide (status = SStr "disabledBySystem")); step; [|by left].
  destruct (Client.on_update_subscription _ _ sid) as [e|[]]; step; [by left|].
  right. by exists d.
Qed.

(** X8: [vsts_subscription_check] touches one row of one table: every other
    table is what it was, and so is every integration with another id. *)
Theorem vsts_subscription_check_frame `{Env} (integration : Integration.t)
    (organization_id : Z) (w : World) :
  let d := db w in
  let d' := db (fst (vsts_subscription_check integration organization_id w)) in
  external_issues d' = external_issues d ∧
  organizations d' = organizations d ∧
  users d' = users d ∧
  groups d' = groups d ∧
  repositories d' = repositories d ∧
  group_links d' = group_links d ∧
  organization_integrations d' = organization_integrations d ∧
  ∀ id, id ≠ Integration.id integration →
        row_by_id (integrations d') id = row_by_id (integrations d) id.
Proof.
  intros d d'.
  destruct (vsts_subscription_check_db integration organization_id w)
    as [Hsame|(sub & _ & Hsaved)]; subst d d'.
  - by rewrite Hsame.
  - rewrite Hsaved. simpl. repeat split.
    intros id Hne. by apply (row_by_id_save_other (A := Integration.t)).
Qed.

Lemma vsts_subscription_check_frame_witness :
  let E := Sample.env true Sample.disabled in
  let w := Sample.world (Sample.store 0 1) [] in
  let d' := db (fst (vsts_subscription_check Sample.vsts 1 w)) in
  (8 ≠ Integration.id Sample.vsts) ∧
  repositories d' = repositories (db w) ∧
  organization_integrations d' = organization_integrations (db w) ∧
  row_by_id (integrations d') 8 = row_by_id (integrations (db w)) 8.
Proof.
  intros E w d'.
  destruct (@vsts_subscription_check_frame E Sample.vsts 1 w)
    as (_ & _ & _ & _ & Hrepos & _ & Hbind & Hother).
  split; [done|]. split; [exact Hrepos|]. split; [exact Hbind|].
  apply Hother. done.
Defined.

(** The renewal, step by step. *)
Lemma vsts_subscription_check_renewal `{Env} (integration : Integration.t)
    (organization_id : Z) (w : World) (d live : gmap string Scalar)
    (sid : Scalar) :
  let installation := get_installation integration (Some organization_id) in
  let client := Installation.on_get_client installation in
  let instance := Installation.instance installation in
  Integration.metadata integration !! "subscription" = Some (MDict d) →
  d !! "id" = Some sid →
  Client.on_get_subscription client instance sid = inr live →
  live !! "status" = Some (SStr "disabledBySystem") →
  Client.on_update_subscription client instance sid = inr tt →
  vsts_subscription_check integration organization_id w =
  (log (DbSave IntegrationM (Integration.id integration))
     (set_db
        (set_integrations
           (save_row (renewed integration d (clock w)) (integrations (db w)))
           (db w))
        (log (ClientCall (update_subscription_ instance sid))
           (log (ClientCall (get_subscription_ instance sid))
              (log (InstallationCall get_client_) w)))),
   inr tt).
Proof.
  intros installation client instance Hsub Hid Hlive Hstatus Hupd.
  run_task. fold installation client instance. step.
  rewrite Hsub, Hid. step. rewrite Hlive, Hstatus. step.
  rewrite bool_decide_true by done. by rewrite Hupd.
Qed.

(** X9: A renewal changes one entry of one dict: the saved integration has
    the provider it had, every metadata key other than 'subscription' as
    it was, and in the subscription every field other than 'check' as it
    was ('id' included); 'check' is the time of the renewal. *)
Theorem renewal_keeps_rest_of_metadata `{Env} (integration : Integration.t)
    (organization_id : Z) (w : World) (d live : gmap string Scalar)
    (sid : Scalar) :
  let installation := get_installation integration (Some organization_id) in
  let client := Installation.on_get_client installation in
  let instance := Installation.instance installation in
  Integration.metadata integration !! "subscription" = Some (MDict d) →
  d !! "id" = Some sid →
  Client.on_get_subscription client instance sid = inr live →
  live !! "status" = Some (SStr "disabledBySystem") →
  Client.on_update_subscription client instance sid = inr tt →
  let w' := fst (vsts_subscription_check integration organization_id w) in
  ∃ saved d',
    row_by_id (integrations (db w')) (Integration.id integration) = Some saved ∧
    Integration.provider saved = Integration.provider integration ∧
    (∀ k, k ≠ "subscription" →
          Integration.metadata saved !! k = Integration.metadata integration !! k) ∧
    Integration.metadata saved !! "subscription" = Some (MDict d') ∧
    d' !! "check" = Some (STime (clock w)) ∧
    d' !! "id" = Some sid ∧
    ∀ k, k ≠ "check" → d' !! k = d !! k.
Proof.
  intros installation client instance Hsub Hid Hlive Hstatus Hupd w'.
  subst w'.
  rewrite (vsts_subscription_check_renewal integration organization_id w d
             live sid Hsub Hid Hlive Hstatus Hupd).
  exists (renewed integration d (clock w)), (<["check" := STime (clock w)]> d).
  split; [|split; [done|split; [|split; [|split; [|split]]]]].
  - simpl. apply (row_by_id_save_at (A := Integration.t)). done.
  - intros k Hk. simpl. by rewrite lookup_insert_ne.
  - simpl. by rewrite lookup_insert_eq.
  - by rewrite lookup_insert_eq.
  - by rewrite lookup_insert_ne.
  - intros k Hk. by rewrite lookup_insert_ne.
Qed.

Lemma renewal_keeps_rest_of_metadata_witness :
  let E := Sample.env true Sample.disabled in
  let w := Sample.world (Sample.store 0 1) [] in
  Sample.disabled !! "status" = Some (SStr "disabledBySystem") ∧
  ∃ saved d',
    row_by_id
      (integrations (db (fst (vsts_subscription_check Sample.vsts 1 w)))) 7
      = Some saved ∧
    Integration.provider saved = "vsts" ∧
    (∀ k, k ≠ "subscription" →
          Integration.metadata saved !! k = Integration.metadata Sample.vsts !! k) ∧
    Integration.metadata saved !! "subscription" = Some (MDict d') ∧
    d' !! "check" = Some (STime (clock w)) ∧
    d' !! "id" = Some (SStr "sub-1") ∧
    ∀ k, k ≠ "check" → d' !! k = ({[ "id" := SStr "sub-1" ]} : gmap _ _) !! k.
Proof.
  intros E w. split; [reflexivity|].
  apply (@renewal_keeps_rest_of_metadata E Sample.vsts 1 w
           {[ "id" := SStr "sub-1" ]} Sample.disabled (SStr "sub-1"));
    reflexivity.
Defined.

(** X11: [vsts_subscription_check] on every path: [update_subscription] is
    called only after [get_subscription] answered with status
    'disabledBySystem' for the subscription id found in the metadata, and
    the integration is saved only after [update_subscription] returned. *)
Theorem vsts_subscription_check_acts_only_when_disabled `{Env}
    (integration : Integration.t) (organization_id : Z) (w : World) :
  let installation := get_installation integration (Some organization_id) in
  let client := Installation.on_get_client installation in
  let instance := Installation.instance installation in
  ∃ new,
    events_since w (fst (vsts_subscription_check integration organization_id w))
      new ∧
    (existsb is_update_subscription new = true →
     ∃ d sid live,
       Integration.metadata integration !! "subscription" = Some (MDict d) ∧
       d !! "id" = Some sid ∧
       Client.on_get_subscription client instance sid = inr live ∧
       live !! "status" = Some (SStr "disabledBySystem")) ∧
    (existsb is_entity_write new = true →
     ∃ sid, Client.on_update_subscription client instance sid = inr tt ∧
            existsb is_update_subscription new = true).
Proof.
  intros installation client instance. run_task.
  fold installation client instance. step.
  destruct (Integration.metadata integration !! "subscription")
    as [[v|d]|] eqn:Hsub; step;
    [eexists; (split; [journal|]); by split| |eexists; (split; [journal|]); by split].
  destruct (d !! "id") as [sid|] eqn:Hid; step;
    [|eexists; (split; [journal|]); by split].
  destruct (Client.on_get_subscription client instance sid) as [e|live]
    eqn:Hlive; step; [eexists; (split; [journal|]); by split|].
  destruct (live !! "status") as [status|] eqn:Hstatus; step;
    [|eexists; (split; [journal|]); by split].
  case_bool_decide as Hdis; step; [|eexists; (split; [journal|]); by split].
  subst status.
  destruct (Client.on_update_subscription client instance sid) as [e|[]]
    eqn:Hupd; step; (eexists; split; [journal|]); split.
  - intros _. by exists d, sid, live.
  - done.
  - intros _. by exists d, sid, live.
  - intros _. by exists sid.
Qed.

Lemma vsts_subscription_check_acts_only_when_disabled_witness :
  let E := Sample.env true Sample.disabled in
  let w := Sample.world (Sample.store 0 1) [] in
  existsb is_update_subscription
    (trace (fst (vsts_subscription_check Sample.vsts 1 w))) = true ∧
  ∃ d sid live,
    Integration.metadata Sample.vsts !! "subscription" = Some (MDict d) ∧
    d !! "id" = Some sid ∧
    Client.on_get_subscription (Sample.client Sample.disabled)
      "example.visualstudio.com" sid = inr live ∧
    live !! "status" = Some (SStr "disabledBySystem").
Proof.
  intros E w. split; [reflexivity|].
  destruct (@vsts_subscription_check_acts_only_when_disabled E Sample.vsts 1 w)
    as (new & Hnew & Hupdate & _).
  apply Hupdate.
  pose proof (events_since_fresh w _ new eq_refl Hnew) as Heq.
  subst new. reflexivity.
Defined.

(** X12: Missing keys in [vsts_subscription_check]: without a 'subscription'
    in the metadata, or without an 'id' in it, the task raises [KeyError]
    before any client call; when the live subscription has no 'status' it
    raises [KeyError] after the one [get_subscription] call.  Nothing is
    written in either case. *)
Theorem vsts_subscription_check_missing_keys `{Env}
    (integration : Integration.t) (organization_id : Z) (w : World) :
  let installation := get_installation integration (Some organization_id) in
  let client := Installation.on_get_client installation in
  let instance := Installation.instance installation in
  (Integration.metadata integration !! "subscription" = None ∨
   (∃ d, Integration.metadata integration !! "subscription" = Some (MDict d) ∧
         d !! "id" = None) →
   vsts_subscription_check integration organization_id w =
   (log (InstallationCall get_client_) w, inl KeyError)) ∧
  (∀ d sid live,
     Integration.metadata integration !! "subscription" = Some (MDict d) →
     d !! "id" = Some sid →
     Client.on_get_subscription client instance sid = inr live →
     live !! "status" = None →
     vsts_subscription_check integration organization_id w =
     (log (ClientCall (get_subscription_ instance sid))
        (log (InstallationCall get_client_) w), inl KeyError)).
Proof.
  intros installation client instance. split.
  - intros [Hsub|(d & Hsub & Hid)]; run_task; step; rewrite Hsub; step;
      [done|by rewrite Hid].
  - intros d sid live Hsub Hid Hlive Hstatus. run_task.
    fold installation client instance. step.
    rewrite Hsub, Hid. step. by rewrite Hlive, Hstatus.
Qed.

Lemma vsts_subscription_check_missing_keys_witness :
  let E := Sample.env true Sample.healthy in
  let w := Sample.world (Sample.store 0 1) [] in
  let bare := {| Integration.id := 8; Integration.provider := "vsts";
                 Integration.metadata := ∅ |} in
  Integration.metadata bare !! "subscription" = None ∧
  vsts_subscription_check bare 1 w =
    (log (InstallationCall get_client_) w, inl KeyError).
Proof.
  intros E w bare. split; [reflexivity|].
  apply (@vsts_subscription_check_missing_keys E bare 1 w). by left.
Defined.

(** ** The sweep, on every table *)

Lemma for_each_skip {A} (pre rest : list A) (body : A → Action unit)
    (w : World) :
  Forall (λ x, body x w = (w, inr tt)) pre →
  for_each (pre ++ rest) body w = for_each rest body w.
Proof.
  induction 1 as [|x pre Hx _ IH]; simpl; [done|].
  rewrite bind_unfold, Hx. exact IH.
Qed.

Lemma sweep_due_checked_recently `{Env} (now : Z) (integration : Integration.t)
    (w : World) :
  checked_recently now integration →
  sweep_due integration (now - timedelta_hours 6) w = (w, inr false).
Proof.
  intros [Hnone|(d & t & Hsub & Hcheck & Hlt)].
  - by apply sweep_due_no_subscription.
  - rewrite (sweep_due_dict _ d) by done. rewrite Hcheck.
    rewrite bool_decide_true by lia. done.
Qed.

Lemma sweep_due_check_overdue `{Env} (now : Z) (integration : Integration.t)
    (w : World) :
  check_overdue now integration →
  sweep_due integration (now - timedelta_hours 6) w = (w, inr true).
Proof.
  intros (d & Hsub & [Hnone|(t & Hcheck & Hle)]);
    rewrite (sweep_due_dict _ d) by done.
  - by rewrite Hnone.
  - rewrite Hcheck. rewrite bool_decide_false by lia. done.
Qed.

(** X13: A sweep that finds nothing due is a no-op: when every VSTS
    integration either has no subscription or was checked less than six
    hours ago, [kickoff_vsts_subscription_check] returns normally having
    only run its query. *)
Theorem kickoff_vsts_subscription_check_nothing_due `{Env} (w : World) :
  Forall (λ row, checked_recently (clock w) (snd row))
         (vsts_organization_integrations (db w)) →
  kickoff_vsts_subscription_check w =
  (log (DbFilter OrganizationIntegrationM) w, inr tt).
Proof.
  intros Hall. unfold kickoff_vsts_subscription_check.
  rewrite bind_unfold. step. rewrite bind_unfold. unfold datetime_now at 1.
  step.
  rewrite <- (app_nil_r (vsts_organization_integrations (db w))).
  rewrite for_each_skip; [done|].
  eapply Forall_impl; [exact Hall|]. intros [oi integration] Hrecent.
  step. rewrite bind_unfold.
  by rewrite (sweep_due_checked_recently (clock w) integration _ Hrecent).
Qed.

Lemma kickoff_vsts_subscription_check_nothing_due_witness :
  let E := Sample.env true Sample.healthy in
  let w := Sample.world
             (Scenario.sweep_store [Scenario.checked_at 8 Scenario.an_hour_ago])
             [] in
  Forall (λ row, checked_recently (clock w) (snd row))
         (vsts_organization_integrations (db w)) ∧
  kickoff_vsts_subscription_check w =
    (log (DbFilter OrganizationIntegrationM) w, inr tt).
Proof.
  intros E w.
  assert (Forall (λ row, checked_recently (clock w) (snd row))
                 (vsts_organization_integrations (db w))) as Hall.
  { assert (vsts_organization_integrations (db w) =
            [(Scenario.binding 8 8, Scenario.checked_at 8 Scenario.an_hour_ago)])
      as -> by reflexivity.
    constructor; [|constructor].
    right. exists {[ "id" := SStr "sub-2"; "check" := STime Scenario.an_hour_ago ]},
             Scenario.an_hour_ago.
    split; [reflexivity|]. split; [reflexivity|]. reflexivity. }
  split; [exact Hall|].
  exact (@kickoff_vsts_subscription_check_nothing_due E w Hall).
Defined.

(** X14: The sweep stops at the first integration that is due: it skips the
    recently checked ones before it, runs that integration's check in
    line, and ends with the check's own exception or, the check
    returning, with [AttributeError]; the integrations after it in the
    table play no part. *)
Theorem kickoff_vsts_subscription_check_stops_at_first_due `{Env} (w : World)
    (pre post : list (OrganizationIntegration.t * Integration.t))
    (oi : OrganizationIntegration.t) (integration : Integration.t) :
  vsts_organization_integrations (db w) = pre ++ (oi, integration) :: post →
  Forall (λ row, checked_recently (clock w) (snd row)) pre →
  check_overdue (clock w) integration →
  let r := vsts_subscription_check integration
             (OrganizationIntegration.organization_id oi)
             (log (DbFilter OrganizationIntegrationM) w) in
  kickoff_vsts_subscription_check w =
  (fst r, inl (match snd r with inl e => e | inr _ => AttributeError end)).
Proof.
  intros Hrows Hpre Hdue r. unfold kickoff_vsts_subscription_check.
  rewrite bind_unfold. step. rewrite bind_unfold. unfold datetime_now at 1.
  step. rewrite Hrows.
  rewrite for_each_skip.
  2:{ eapply Forall_impl; [exact Hpre|]. intros [oi' i'] Hrecent.
      step. rewrite bind_unfold.
      by rewrite (sweep_due_checked_recently (clock w) i' _ Hrecent). }
  simpl for_each. rewrite bind_unfold. step. rewrite bind_unfold.
  rewrite (sweep_due_check_overdue (clock w) integration _ Hdue).
  rewrite bind_unfold. fold r. by destruct r as [w1 [e|[]]].
Qed.

Lemma kickoff_vsts_subscription_check_stops_at_first_due_witness :
  let E := Sample.env true Sample.healthy in
  let w := Sample.world
             (Scenario.sweep_store
                [Scenario.checked_at 8 Scenario.an_hour_ago; Sample.vsts;
                 Scenario.checked_at 9 0])
             [] in
  check_overdue (clock w) Sample.vsts ∧
  kickoff_vsts_subscription_check w =
  (fst (vsts_subscription_check Sample.vsts 1
          (log (DbFilter OrganizationIntegrationM) w)),
   inl AttributeError).
Proof.
  intros E w.
  assert (check_overdue (clock w) Sample.vsts) as Hdue.
  { exists {[ "id" := SStr "sub-1" ]}. split; [reflexivity|]. by left. }
  split; [exact Hdue|].
  apply (@kickoff_vsts_subscription_check_stops_at_first_due E w
           [(Scenario.binding 8 8, Scenario.checked_at 8 Scenario.an_hour_ago)]
           [(Scenario.binding 9 9, Scenario.checked_at 9 0)]
           (Scenario.binding 7 7) Sample.vsts); [reflexivity| |exact Hdue].
  constructor; [|constructor].
  right. exists {[ "id" := SStr "sub-2"; "check" := STime Scenario.an_hour_ago ]},
           Scenario.an_hour_ago.
  split; [reflexivity|]. split; [reflexivity|]. reflexivity.
Defined.

(** ** The issue-sync tasks, on every path *)

(** Closes a path on which none of the events asked about occurred. *)
Ltac quiet_path := eexists; (split; [journal|]); by split.

(** X15: [post_comment] on every path: [create_comment] is called only when
    the ExternalIssue, its Organization and the Integration are found, the
    flag is on, [should_sync('comment')] answered true and [data] has a
    'text'; the analytics record is written only when that call returned,
    and then the task returns normally. *)
Theorem post_comment_pushes_only_when_enabled `{Env} (external_issue_id : Z)
    (data : gmap string string) (user_id : Z) (w : World) :
  let r := post_comment external_issue_id data user_id w in
  ∃ new, events_since w (fst r) new ∧
    (existsb is_push_call new = true →
     ∃ ei org integration text,
       row_by_id (external_issues (db w)) external_issue_id = Some ei ∧
       row_by_id (organizations (db w)) (ExternalIssue.organization_id ei)
         = Some org ∧
       features_has issue_sync_flag org = true ∧
       row_by_id (integrations (db w)) (ExternalIssue.integration_id ei)
         = Some integration ∧
       Installation.on_should_sync
         (get_installation integration
            (Some (ExternalIssue.organization_id ei))) "comment" = true ∧
       data !! "text" = Some text) ∧
    (existsb is_analytics_record new = true →
     existsb is_push_call new = true ∧ snd r = inr tt).
Proof.
  intros r. subst r. run_task. unfold issue_sync_flag.
  destruct (row_by_id (external_issues (db w)) external_issue_id)
    as [ei|] eqn:Hei; step; [|quiet_path].
  destruct (row_by_id (organizations (db w)) (ExternalIssue.organization_id ei))
    as [org|] eqn:Horg; step; [|quiet_path].
  destruct (features_has _ org) eqn:Hflag; cbn [negb]; step; [|quiet_path].
  destruct (row_by_id (integrations (db w)) (ExternalIssue.integration_id ei))
    as [integration|] eqn:Hint; step; [|quiet_path].
  destruct (Installation.on_should_sync _ "comment") eqn:Hsync; step;
    [|quiet_path].
  destruct (data !! "text") as [text|] eqn:Htext; step; [|quiet_path].
  destruct (Installation.on_create_comment _ _ _ _) as [e|[]]; step;
    (eexists; split; [journal|]); split; try done;
    intros _; by exists ei, org, integration, text.
Qed.

Lemma post_comment_pushes_only_when_enabled_witness :
  let E := Sample.env true Sample.healthy in
  let w := Sample.world (Sample.store 0 1) [] in
  let r := post_comment 3 {[ "text" := "hello" ]} 11 w in
  existsb is_analytics_record (trace (fst r)) = true ∧
  existsb is_push_call (trace (fst r)) = true ∧ snd r = inr tt.
Proof.
  intros E w r. split; [reflexivity|].
  destruct (@post_comment_pushes_only_when_enabled E 3
              {[ "text" := "hello" ]} 11 w) as (new & Hnew & _ & Hrecord).
  fold r in Hnew, Hrecord.
  pose proof (events_since_fresh w (fst r) new eq_refl Hnew) as Heq.
  subst new. apply Hrecord. reflexivity.
Defined.

(** X16: [sync_assignee_outbound] on every path: the installation's
    [sync_assignee_outbound] is called only when the ExternalIssue, its
    Organization and the Integration are found, the flag is on and
    [should_sync('outbound_assignee')] answered true; the analytics record
    is written only when that call returned, and then the task returns
    normally. *)
Theorem sync_assignee_outbound_pushes_only_when_enabled `{Env}
    (external_issue_id : Z) (user_id : option Z) (assign : bool) (w : World) :
  let r := sync_assignee_outbound external_issue_id user_id assign w in
  ∃ new, events_since w (fst r) new ∧
    (existsb is_push_call new = true →
     ∃ ei org integration,
       row_by_id (external_issues (db w)) external_issue_id = Some ei ∧
       row_by_id (organizations (db w)) (ExternalIssue.organization_id ei)
         = Some org ∧
       features_has issue_sync_flag org = true ∧
       row_by_id (integrations (db w)) (ExternalIssue.integration_id ei)
         = Some integration ∧
       Installation.on_should_sync
         (get_installation integration
            (Some (ExternalIssue.organization_id ei))) "outbound_assignee"
         = true) ∧
    (existsb is_analytics_record new = true →
     existsb is_push_call new = true ∧ snd r = inr tt).
Proof.
  intros r. subst r. run_task. unfold issue_sync_flag.
  destruct (row_by_id (external_issues (db w)) external_issue_id)
    as [ei|] eqn:Hei; step; [|quiet_path].
  destruct (row_by_id (organizations (db w)) (ExternalIssue.organization_id ei))
    as [org|] eqn:Horg; step; [|quiet_path].
  destruct (features_has _ org) eqn:Hflag; cbn [negb]; step; [|quiet_path].
  destruct (row_by_id (integrations (db w)) (ExternalIssue.integration_id ei))
    as [integration|] eqn:Hint; step; [|quiet_path].
  destruct user_id as [uid|]; step;
    [destruct (row_by_id (users (db w)) uid) as [user|]; step; [|quiet_path]|];
    (destruct (Installation.on_should_sync _ "outbound_assignee") eqn:Hsync;
     step; [|quiet_path]);
    (destruct (Installation.on_sync_assignee_outbound _ _ _ _) as [e|[]]; step);
    (eexists; split; [journal|]); split; try done;
    intros _; by exists ei, org, integration.
Qed.

Lemma sync_assignee_outbound_pushes_only_when_enabled_witness :
  let E := Sample.env true Sample.healthy in
  let w := Sample.world (Sample.store 0 1) [] in
  let r := sync_assignee_outbound 3 (Some 11) true w in
  existsb is_analytics_record (trace (fst r)) = true ∧
  existsb is_push_call (trace (fst r)) = true ∧ snd r = inr tt.
Proof.
  intros E w r. split; [reflexivity|].
  destruct (@sync_assignee_outbound_pushes_only_when_enabled E 3 (Some 11)
              true w) as (new & Hnew & _ & Hrecord).
  fold r in Hnew, Hrecord.
  pose proof (events_since_fresh w (fst r) new eq_refl Hnew) as Heq.
  subst new. apply Hrecord. reflexivity.
Defined.

(** X17: [sync_status_outbound] on every path: the installation's
    [sync_status_outbound] is called only when a Group with that id and
    status UNRESOLVED or RESOLVED is found, the flag is on for its
    organization, the ExternalIssue and the Integration are found and
    [should_sync('outbound_status')] answered true; the analytics record
    is written only when that call returned, and then the task returns
    normally. *)
Theorem sync_status_outbound_pushes_only_when_enabled `{Env}
    (group_id external_issue_id : Z) (w : World) :
  let r := sync_status_outbound group_id external_issue_id w in
  ∃ new, events_since w (fst r) new ∧
    (existsb is_push_call new = true →
     ∃ group ei integration,
       syncable_group (db w) group_id = Some group ∧
       features_has issue_sync_flag (Group.organization group) = true ∧
       row_by_id (external_issues (db w)) external_issue_id = Some ei ∧
       row_by_id (integrations (db w)) (ExternalIssue.integration_id ei)
         = Some integration ∧
       Installation.on_should_sync
         (get_installation integration
            (Some (ExternalIssue.organization_id ei))) "outbound_status"
         = true) ∧
    (existsb is_analytics_record new = true →
     existsb is_push_call new = true ∧ snd r = inr tt).
Proof.
  intros r. subst r. rewrite sync_status_outbound_unfold.
  destruct (syncable_group (db w) group_id) as [group|] eqn:Hgroup;
    [|quiet_path].
  run_task. step.
  destruct (features_has issue_sync_flag (Group.organization group)) eqn:Hflag;
    cbn [negb]; step; [|quiet_path].
  destruct (row_by_id (external_issues (db w)) external_issue_id)
    as [ei|] eqn:Hei; step; [|quiet_path].
  destruct (row_by_id (integrations (db w)) (ExternalIssue.integration_id ei))
    as [integration|] eqn:Hint; step; [|quiet_path].
  destruct (Installation.on_should_sync _ "outbound_status") eqn:Hsync; step;
    [|quiet_path].
  destruct (Installation.on_sync_status_outbound _ _ _ _) as [e|[]]; step;
    (eexists; split; [journal|]); split; try done;
    intros _; by exists group, ei, integration.
Qed.

Lemma sync_status_outbound_pushes_only_when_enabled_witness :
  let E := Sample.env true Sample.healthy in
  let w := Sample.world (Sample.store 1 1) [] in
  let r := sync_status_outbound 5 3 w in
  existsb is_analytics_record (trace (fst r)) = true ∧
  existsb is_push_call (trace (fst r)) = true ∧ snd r = inr tt.
Proof.
  intros E w r. split; [reflexivity|].
  destruct (@sync_status_outbound_pushes_only_when_enabled E 5 3 w)
    as (new & Hnew & _ & Hrecord).
  fold r in Hnew, Hrecord.
  pose proof (events_since_fresh w (fst r) new eq_refl Hnew) as Heq.
  subst new. apply Hrecord. reflexivity.
Defined.

(** ** What the issue-sync tasks send *)

(** X18: A comment that goes through: with everything found, the flag on,
    [should_sync('comment')] true and [create_comment] returning,
    [post_comment] sends the ExternalIssue's key, the user id and
    [data['text']], then records 'integration.issue.comments.synced' with
    the integration's provider and id, the ExternalIssue's organization
    and the user id, and returns. *)
Theorem post_comment_sends_key_user_text `{Env} (external_issue_id : Z)
    (data : gmap string string) (user_id : Z) (w : World)
    (ei : ExternalIssue.t) (org : Organization.t) (integration : Integration.t)
    (text : string) :
  let installation :=
    get_installation integration (Some (ExternalIssue.organization_id ei)) in
  row_by_id (external_issues (db w)) external_issue_id = Some ei →
  row_by_id (organizations (db w)) (ExternalIssue.organization_id ei)
    = Some org →
  features_has issue_sync_flag org = true →
  row_by_id (integrations (db w)) (ExternalIssue.integration_id ei)
    = Some integration →
  Installation.on_should_sync installation "comment" = true →
  data !! "text" = Some text →
  Installation.on_create_comment installation (ExternalIssue.key ei) user_id text
    = inr tt →
  ∃ w', post_comment external_issue_id data user_id w = (w', inr tt) ∧
        db w' = db w ∧
        events_since w w'
          [AnalyticsRecord "integration.issue.comments.synced"
             (Integration.provider integration) (Integration.id integration)
             (ExternalIssue.organization_id ei) (Some user_id);
           InstallationCall
             (create_comment_ (ExternalIssue.key ei) user_id text);
           InstallationCall (should_sync_ "comment");
           DbGet IntegrationM (ExternalIssue.integration_id ei);
           DbGet OrganizationM (ExternalIssue.organization_id ei);
           DbGet ExternalIssueM external_issue_id].
Proof.
  intros installation Hei Horg Hflag Hint Hsync Htext Hcreate.
  unfold issue_sync_flag in Hflag. run_task.
  rewrite Hei. step. rewrite Horg. step. rewrite Hflag. cbn [negb]. step.
  rewrite Hint. step. fold installation. rewrite Hsync. step.
  rewrite Htext. step. rewrite Hcreate. by eexists.
Qed.

Lemma post_comment_sends_key_user_text_witness :
  let E := Sample.env true Sample.healthy in
  let w := Sample.world (Sample.store 0 1) [] in
  ({[ "text" := "hello" ]} : gmap string string) !! "text" = Some "hello" ∧
  ∃ w', post_comment 3 {[ "text" := "hello" ]} 11 w = (w', inr tt) ∧
        db w' = db w ∧
        events_since w w'
          [AnalyticsRecord "integration.issue.comments.synced" "vsts" 7 1
             (Some 11);
           InstallationCall (create_comment_ "APP-3" 11 "hello");
           InstallationCall (should_sync_ "comment");
           DbGet IntegrationM 7; DbGet OrganizationM 1; DbGet ExternalIssueM 3].
Proof.
  intros E w. split; [reflexivity|].
  apply (@post_comment_sends_key_user_text E 3 {[ "text" := "hello" ]} 11 w
           Sample.issue Sample.org Sample.vsts "hello"); reflexivity.
Defined.

(** X19: [data['text']] is read only once [should_sync('comment')] has
    answered true: without a 'text', [post_comment] then raises
    [KeyError] before anything is sent, while with [should_sync] false it
    returns normally, text or no text. *)
Theorem post_comment_text_needed_only_to_send `{Env} (external_issue_id : Z)
    (data : gmap string string) (user_id : Z) (w : World)
    (ei : ExternalIssue.t) (org : Organization.t) (integration : Integration.t) :
  let installation :=
    get_installation integration (Some (ExternalIssue.organization_id ei)) in
  let w' :=
    log (InstallationCall (should_sync_ "comment"))
      (log (DbGet IntegrationM (ExternalIssue.integration_id ei))
         (log (DbGet OrganizationM (ExternalIssue.organization_id ei))
            (log (DbGet ExternalIssueM external_issue_id) w))) in
  row_by_id (external_issues (db w)) external_issue_id = Some ei →
  row_by_id (organizations (db w)) (ExternalIssue.organization_id ei)
    = Some org →
  features_has issue_sync_flag org = true →
  row_by_id (integrations (db w)) (ExternalIssue.integration_id ei)
    = Some integration →
  (Installation.on_should_sync installation "comment" = true →
   data !! "text" = None →
   post_comment external_issue_id data user_id w = (w', inl KeyError)) ∧
  (Installation.on_should_sync installation "comment" = false →
   post_comment external_issue_id data user_id w = (w', inr tt)).
Proof.
  intros installation w' Hei Horg Hflag Hint.
  unfold issue_sync_flag in Hflag. run_task.
  rewrite Hei. step. rewrite Horg. step. rewrite Hflag. cbn [negb]. step.
  rewrite Hint. step. fold installation.
  split.
  - intros Hsync Htext. rewrite Hsync. step. by rewrite Htext.
  - intros Hsync. by rewrite Hsync.
Qed.

Lemma post_comment_text_needed_only_to_send_witness :
  let E := Sample.env true Sample.healthy in
  let w := Sample.world (Sample.store 0 1) [] in
  (∅ : gmap string string) !! "text" = None ∧
  post_comment 3 ∅ 11 w =
    (log (InstallationCall (should_sync_ "comment"))
       (log (DbGet IntegrationM 7)
          (log (DbGet OrganizationM 1) (log (DbGet ExternalIssueM 3) w))),
     inl KeyError).
Proof.
  intros E w. split; [reflexivity|].
  apply (@post_comment_text_needed_only_to_send E 3 ∅ 11 w
           Sample.issue Sample.org Sample.vsts); reflexivity.
Defined.

(** X20: The user [sync_assignee_outbound] passes on: with [user_id] None the
    installation is given no user and the users table is not queried
    (unassign); with a user id it is given the User found under that id,
    looked up after the Integration.  Either way the call carries the
    ExternalIssue and the [assign] flag. *)
Theorem sync_assignee_outbound_user_argument `{Env} (external_issue_id : Z)
    (user_id : option Z) (assign : bool) (w : World)
    (ei : ExternalIssue.t) (org : Organization.t) (integration : Integration.t)
    (user : option User.t) :
  let installation :=
    get_installation integration (Some (ExternalIssue.organization_id ei)) in
  row_by_id (external_issues (db w)) external_issue_id = Some ei →
  row_by_id (organizations (db w)) (ExternalIssue.organization_id ei)
    = Some org →
  features_has issue_sync_flag org = true →
  row_by_id (integrations (db w)) (ExternalIssue.integration_id ei)
    = Some integration →
  match user_id with
  | None => user = None
  | Some uid => ∃ u, row_by_id (users (db w)) uid = Some u ∧ user = Some u
  end →
  Installation.on_should_sync installation "outbound_assignee" = true →
  Installation.on_sync_assignee_outbound installation ei user assign = inr tt →
  ∃ w',
    sync_assignee_outbound external_issue_id user_id assign w = (w', inr tt) ∧
    events_since w w'
      ([AnalyticsRecord "integration.issue.assignee.synced"
          (Integration.provider integration) (Integration.id integration)
          (ExternalIssue.organization_id ei) None;
        InstallationCall (sync_assignee_outbound_ ei user assign);
        InstallationCall (should_sync_ "outbound_assignee")]
       ++ match user_id with
          | None => []
          | Some uid => [DbGet UserM uid]
          end
       ++ [DbGet IntegrationM (ExternalIssue.integration_id ei);
           DbGet OrganizationM (ExternalIssue.organization_id ei);
           DbGet ExternalIssueM external_issue_id]).
Proof.
  intros installation Hei Horg Hflag Hint Huser Hsync Hcall.
  unfold issue_sync_flag in Hflag. run_task.
  rewrite Hei. step. rewrite Horg. step. rewrite Hflag. cbn [negb]. step.
  rewrite Hint. step. fold installation.
  destruct user_id as [uid|].
  - destruct Huser as (u & Hu & ->). step. rewrite Hu. step.
    rewrite Hsync. step. rewrite Hcall. by eexists.
  - subst user. step. rewrite Hsync. step. rewrite Hcall. by eexists.
Qed.

Lemma sync_assignee_outbound_user_argument_witness :
  let E := Sample.env true Sample.healthy in
  let w := Sample.world (Sample.store 0 1) [] in
  row_by_id (external_issues (db w)) 3 = Some Sample.issue ∧
  ∃ w',
    sync_assignee_outbound 3 None false w = (w', inr tt) ∧
    events_since w w'
      [AnalyticsRecord "integration.issue.assignee.synced" "vsts" 7 1 None;
       InstallationCall (sync_assignee_outbound_ Sample.issue None false);
       InstallationCall (should_sync_ "outbound_assignee");
       DbGet IntegrationM 7; DbGet OrganizationM 1; DbGet ExternalIssueM 3].
Proof.
  intros E w. split; [reflexivity|].
  apply (@sync_assignee_outbound_user_argument E 3 None false w
           Sample.issue Sample.org Sample.vsts None); reflexivity.
Defined.

(** X21: The status [sync_status_outbound] passes on: the installation is
    told 'resolved' exactly when the Group's status is RESOLVED, together
    with the ExternalIssue and the Group's project id; then
    'integration.issue.status.synced' is recorded. *)
Theorem sync_status_outbound_sends_resolved_flag `{Env}
    (group_id external_issue_id : Z) (w : World)
    (group : Group.t) (ei : ExternalIssue.t) (integration : Integration.t) :
  let installation :=
    get_installation integration (Some (ExternalIssue.organization_id ei)) in
  let resolved := bool_decide (Group.status group = GroupStatus_RESOLVED) in
  syncable_group (db w) group_id = Some group →
  features_has issue_sync_flag (Group.organization group) = true →
  row_by_id (external_issues (db w)) external_issue_id = Some ei →
  row_by_id (integrations (db w)) (ExternalIssue.integration_id ei)
    = Some integration →
  Installation.on_should_sync installation "outbound_status" = true →
  Installation.on_sync_status_outbound installation ei resolved
    (Group.project_id group) = inr tt →
  ∃ w', sync_status_outbound group_id external_issue_id w = (w', inr tt) ∧
        db w' = db w ∧
        events_since w w'
          [AnalyticsRecord "integration.issue.status.synced"
             (Integration.provider integration) (Integration.id integration)
             (ExternalIssue.organization_id ei) None;
           InstallationCall
             (sync_status_outbound_ ei resolved (Group.project_id group));
           InstallationCall (should_sync_ "outbound_status");
           DbGet IntegrationM (ExternalIssue.integration_id ei);
           DbGet ExternalIssueM external_issue_id;
           DbFilter GroupM].
Proof.
  intros installation resolved Hgroup Hflag Hei Hint Hsync Hcall.
  rewrite sync_status_outbound_unfold, Hgroup. run_task. step.
  rewrite Hflag. cbn [negb]. step. rewrite Hei. step. rewrite Hint. step.
  fold installation. rewrite Hsync. step. fold resolved. rewrite Hcall.
  by eexists.
Qed.

Lemma sync_status_outbound_sends_resolved_flag_witness :
  let E := Sample.env true Sample.healthy in
  let w := Sample.world (Sample.store 1 1) [] in
  syncable_group (db w) 5 = Some (Sample.group 1) ∧
  ∃ w', sync_status_outbound 5 3 w = (w', inr tt) ∧
        db w' = db w ∧
        events_since w w'
          [AnalyticsRecord "integration.issue.status.synced" "vsts" 7 1 None;
           InstallationCall (sync_status_outbound_ Sample.issue true 2);
           InstallationCall (should_sync_ "outbound_status");
           DbGet IntegrationM 7; DbGet ExternalIssueM 3; DbFilter GroupM].
Proof.
  intros E w. split; [reflexivity|].
  apply (@sync_status_outbound_sends_resolved_flag E 5 3 w (Sample.group 1)
           Sample.issue Sample.vsts); reflexivity.
Defined.
